(** * Class scheduler: time parsing, conflict detection, greedy selection

    A shallow embedding of [Schedule_Checker.py] and the properties of its
    core: [parse_time], [times_overlap], [add_class], [update_class_list]
    and [select_classes].

    Python values are modelled as follows.
    - [float] is IEEE binary64, taken from the standard library's
      [SpecFloat] with precision 53 and maximal exponent 1024; every
      arithmetic operation rounds to nearest, ties to even.
    - [str] is a Rocq [string], one [ascii] per code point; this covers the
      code points below 256, where the class [\d] is exactly [0-9].
    - a [list] object that is mutated in place lives in a heap of list
      objects and is named by its address. *)

From Stdlib Require Import ZArith QArith Qabs Lia Bool Ascii String SpecFloat.
From stdpp Require Import base list strings gmap sorting.

Open Scope Z_scope.

(** ** Floats *)

Module Float.

Definition prec : Z := 53.
Definition emax : Z := 1024.

Abbreviation float := spec_float.

(** [float(n)] for an integer [n]; exact whenever [|n| < 2^53]. *)
Definition of_Z (n : Z) : float := binary_normalize prec emax n 0 false.

Definition add : float -> float -> float := SFadd prec emax.
Definition sub : float -> float -> float := SFsub prec emax.
Definition mul : float -> float -> float := SFmul prec emax.
Definition div : float -> float -> float := SFdiv prec emax.

(** Python's comparison operators on floats; all are [False] on NaN. *)
Definition ltb : float -> float -> bool := SFltb.
Definition leb : float -> float -> bool := SFleb.
Definition eqb : float -> float -> bool := SFeqb.
Definition geb (x y : float) : bool := SFleb y x.

(** [int(x)]: truncation towards zero; raises on NaN and infinities. *)
Definition to_int (x : float) : option Z :=
  match x with
  | S754_zero _ => Some 0
  | S754_finite s m e =>
      let a := if 0 <=? e then Z.pos m * 2 ^ e else Z.pos m / 2 ^ (- e) in
      Some (if s then - a else a)
  | S754_infinity _ | S754_nan => None
  end.

(** The exact value of a finite float, scaled by [2^1074] so that it is an
    integer for every binary64 number. *)
Definition scaled (x : float) : Z :=
  match x with
  | S754_finite s m e =>
      let a := Z.shiftl (Z.pos m) (e + 1074) in if s then - a else a
  | _ => 0
  end.

(** The exact value of a finite float, as a rational. *)
Definition to_Q (x : float) : Q := Qmake (scaled x) (2 ^ 1074).

#[global] Instance float_eq_dec : EqDecision float.
Proof. solve_decision. Defined.

End Float.

Import Float.

(** ** Strings *)

(** [ord(c)] *)
Definition ord (c : ascii) : Z := Z.of_N (N_of_ascii c).

(** The characters [str.strip()] removes, among the code points below 256:
    tab to carriage return, the four separators [\x1c]-[\x1f], space,
    [\x85] and [\xa0]. *)
Definition is_space (c : ascii) : bool :=
  (9 <=? ord c) && (ord c <=? 13) || (28 <=? ord c) && (ord c <=? 32)
  || (ord c =? 133) || (ord c =? 160).

Fixpoint lstrip (s : string) : string :=
  match s with
  | String c s' => if is_space c then lstrip s' else s
  | EmptyString => EmptyString
  end.

Definition rstrip (s : string) : string := String.rev (lstrip (String.rev s)).

(** [s.strip()] *)
Definition strip (s : string) : string := rstrip (lstrip s).

(** [sep.join(l)] *)
Fixpoint join (sep : string) (l : list string) : string :=
  match l with
  | [] => EmptyString
  | [x] => x
  | x :: r => x +:+ sep +:+ join sep r
  end.

Definition is_digit (c : ascii) : bool := (48 <=? ord c) && (ord c <=? 57).

(** [int(s)] for a non-empty string of decimal digits, the only strings
    this program converts; [None] on every other string. *)
Fixpoint int_digits (s : string) (acc : Z) : option Z :=
  match s with
  | EmptyString => Some acc
  | String c s' =>
      if is_digit c then int_digits s' (10 * acc + (ord c - 48)) else None
  end.

Definition int (s : string) : option Z :=
  match s with
  | EmptyString => None
  | _ => int_digits s 0
  end.

(** The decimal digits of a natural number, most significant first. *)
Fixpoint digits_fuel (fuel : nat) (n : Z) (acc : string) : string :=
  match fuel with
  | O => acc
  | S fuel' =>
      let acc' := String (ascii_of_N (Z.to_N (48 + n mod 10))) acc in
      if n <? 10 then acc' else digits_fuel fuel' (n / 10) acc'
  end.

Definition digits (n : Z) : string :=
  digits_fuel (S (Z.to_nat (Z.log2 n))) n EmptyString.

(** The format specification [{n:02d}]: decimal, padded with zeros to a
    width of two, the sign counting towards the width. *)
Definition fmt_02d (n : Z) : string :=
  if n <? 0 then "-" +:+ digits (- n)
  else if n <? 10 then "0" +:+ digits n
  else digits n.

(** ** Regular expressions

    The fragment of Python's [re] that the time pattern uses, with the
    backtracking order of the library: the left branch of [|] first, and
    [?] greedy. *)

Module Regex.

Inductive item :=
| One (c : ascii)             (* a character listed in a class *)
| Range (lo hi : ascii)       (* [lo-hi] *)
| Digit.                      (* \d *)

Inductive regex :=
| Bol                         (* ^ *)
| Eol                         (* $ *)
| Chr (c : ascii)
| Cls (items : list item)     (* [...] or a lone \d *)
| Cat (r1 r2 : regex)
| Alt (r1 r2 : regex)         (* r1|r2 *)
| Opt (r : regex)             (* r? *)
| Grp (n : nat) (r : regex).  (* the n-th capturing group *)

Definition in_item (a : ascii) (i : item) : bool :=
  match i with
  | One c => ord a =? ord c
  | Range lo hi => (ord lo <=? ord a) && (ord a <=? ord hi)
  | Digit => is_digit a
  end.

Definition in_class (a : ascii) (items : list item) : bool :=
  existsb (in_item a) items.

(** Without [re.MULTILINE], [$] matches at the end of the string and also
    just before a newline that is the last character of the string. *)
Definition at_eol (s : string) : bool :=
  match s with
  | EmptyString => true
  | String c EmptyString => ord c =? 10
  | _ => false
  end.

Definition groups := list (nat * string).

(** [run r i s g k]: match [r] against the suffix [s] that starts at index
    [i], with the groups [g] captured so far; [k] matches what follows. *)
Fixpoint run (r : regex) (i : nat) (s : string) (g : groups)
    (k : nat -> string -> groups -> option groups) : option groups :=
  match r with
  | Bol => if Nat.eqb i 0 then k i s g else None
  | Eol => if at_eol s then k i s g else None
  | Chr c =>
      match s with
      | String a s' => if ord a =? ord c then k (S i) s' g else None
      | EmptyString => None
      end
  | Cls items =>
      match s with
      | String a s' => if in_class a items then k (S i) s' g else None
      | EmptyString => None
      end
  | Cat r1 r2 => run r1 i s g (fun i' s' g' => run r2 i' s' g' k)
  | Alt r1 r2 =>
      match run r1 i s g k with
      | Some g' => Some g'
      | None => run r2 i s g k
      end
  | Opt r1 =>
      match run r1 i s g k with
      | Some g' => Some g'
      | None => k i s g
      end
  | Grp n r1 =>
      run r1 i s g
        (fun i' s' g' => k i' s' ((n, substring 0 (i' - i) s) :: g'))
  end.

(** [re.match(r, s)]: a match that starts at index 0 and may end anywhere. *)
Definition re_match (r : regex) (s : string) : option groups :=
  run r 0 s [] (fun _ _ g => Some g).

(** [m.group(n)] *)
Fixpoint group (m : groups) (n : nat) : option string :=
  match m with
  | [] => None
  | (n', s) :: m' => if Nat.eqb n n' then Some s else group m' n
  end.

End Regex.

Import Regex.

(** ** The module-level definitions *)

Definition DAYS : list string :=
  ["Mon"; "Tue"; "Wed"; "Thu"; "Fri"; "Sat"; "Sun"]%string.

(** [r'^([01]?\d|2[0-3]):([0-5]\d)$'] *)
Definition pattern : regex :=
  Cat Bol
   (Cat (Grp 1 (Alt (Cat (Opt (Cls [One "0"; One "1"])) (Cls [Digit]))
                    (Cat (Chr "2") (Cls [Range "0" "3"]))))
    (Cat (Chr ":")
     (Cat (Grp 2 (Cat (Cls [Range "0" "5"]) (Cls [Digit])))
      Eol))).

(** [parse_time(tstr)]; [None] stands for the [ValueError] it raises,
    "Time must be in HH:MM 24-hour format". *)
Definition parse_time (tstr : string) : option float :=
  match re_match pattern tstr with
  | None => None
  | Some m =>
      hour ← group m 1 ≫= int;
      minute ← group m 2 ≫= int;
      Some (add (of_Z hour) (div (of_Z minute) (of_Z 60)))
  end.

(** [times_overlap(start1, end1, start2, end2)] *)
Definition times_overlap (start1 end1 start2 end2 : float) : bool :=
  negb (leb end1 start2 || leb end2 start1).

(** ** The application object *)

(** A stored class: the dict [{"name", "start", "end", "days"}]. No code
    path assigns to a key after the dict is built, so it is a value. *)
Record ClassEntry := {
  name : string;
  start : float;
  end_ : float;
  days : list string;
}.

#[global] Instance ClassEntry_eq_dec : EqDecision ClassEntry.
Proof. solve_decision. Defined.

(** The list objects that hold class dicts, by address. [self.classes] is
    one of them; every [day_classes] of [select_classes] is another. *)
Abbreviation heap_t := (list (list ClassEntry)).

(** Creating a list object. *)
Definition alloc (h : heap_t) (l : list ClassEntry) : nat * heap_t :=
  (length h, h ++ [l]).

(** Reading the elements of the list object at address [r]. *)
Definition deref (h : heap_t) (r : nat) : list ClassEntry := h !!! r.

(** Replacing in place the elements of the list object at address [r]. *)
Definition assign (h : heap_t) (r : nat) (l : list ClassEntry) : heap_t :=
  <[r := l]> h.

(** The fields of [ClassSchedulerApp] that the callbacks write. The entry
    widgets and check boxes are read only through [get()], and their
    contents are arguments of [add_class] here. *)
Record App := {
  heap : heap_t;
  classes : nat;                  (* self.classes, a reference *)
  class_listbox : list string;    (* the rows of self.class_listbox *)
  result_text : string;           (* the contents of self.result_text *)
}.

(** What a callback did besides updating the object: it ran to its end
    silently, it returned after a message box, or an exception left it. *)
Inductive event :=
| Completed
| Showerror (title message : string)
| Showwarning (title existing_name : string) (shared_days : gset string)
| Raised.

(** The object after [__init__]. *)
Definition init : App :=
  {| heap := [[]]; classes := 0; class_listbox := []; result_text := EmptyString |}.

Definition self_classes (app : App) : list ClassEntry :=
  deref (heap app) (classes app).

Definition nl : string := String "010" EmptyString.

(** The clock text both display loops build:
    [hr = int(t)], [mn = int((t - hr) * 60)], [f"{hr:02d}:{mn:02d}"]. *)
Definition format_time (t : float) : option string :=
  hr ← to_int t;
  mn ← to_int (mul (sub t (of_Z hr)) (of_Z 60));
  Some (fmt_02d hr +:+ ":" +:+ fmt_02d mn).

(** The loop of [update_class_list]; it stops where [int()] raises. *)
Fixpoint fill_listbox (cs : list ClassEntry) (box : list string)
    : list string * event :=
  match cs with
  | [] => (box, Completed)
  | c :: cs' =>
      match format_time (start c), format_time (end_ c) with
      | Some start_str, Some end_str =>
          fill_listbox cs'
            (box ++ [name c +:+ ": " +:+ start_str +:+ " - " +:+ end_str
                     +:+ " on " +:+ join ", " (days c)])
      | _, _ => (box, Raised)
      end
  end.

Definition update_class_list (app : App) : App * event :=
  let '(box, ev) := fill_listbox (self_classes app) [] in
  ({| heap := heap app; classes := classes app;
      class_listbox := box; result_text := result_text app |}, ev).

(** [[DAYS[i] for i, var in enumerate(day_vars) if var.get() == 1]], from
    index [i] on; [None] when [DAYS[i]] raises [IndexError]. *)
Fixpoint checked_days (i : nat) (day_vars : list Z) : option (list string) :=
  match day_vars with
  | [] => Some []
  | v :: vars' =>
      if v =? 1 then
        d ← DAYS !! i; ds ← checked_days (S i) vars'; Some (d :: ds)
      else checked_days (S i) vars'
  end.

(** [set(days).intersection(existing['days'])] *)
Definition shared (days existing_days : list string) : gset string :=
  list_to_set days ∩ list_to_set existing_days.

(** The conflict loop of [add_class] for a candidate with days [days0] and
    times [start0], [end0]: the name of the first stored class that shares
    a day with the candidate and overlaps it, with the shared days. *)
Fixpoint find_conflict (days0 : list string) (start0 end0 : float)
    (cs : list ClassEntry) : option (string * gset string) :=
  match cs with
  | [] => None
  | existing :: cs' =>
      let shared_days := shared days0 (days existing) in
      if bool_decide (shared_days ≠ ∅)
         && times_overlap start0 end0 (start existing) (end_ existing)
      then Some (name existing, shared_days)
      else find_conflict days0 start0 end0 cs'
  end.

(** [add_class], with the contents of the three entry widgets and the
    values of the seven check-box variables as arguments. The message of
    the conflict warning lists the shared days in the iteration order of a
    set, which Python does not fix; the event keeps the set. *)
Definition add_class (name_entry start_entry end_entry : string)
    (day_vars : list Z) (app : App) : App * event :=
  let name := strip name_entry in
  if bool_decide (name = EmptyString) then
    (app, Showerror "Invalid Input" "Class name cannot be empty.")
  else
  let format_error :=
    (app, Showerror "Invalid Input" "Time must be in HH:MM 24-hour format") in
  match parse_time (strip start_entry) with
  | None => format_error
  | Some start =>
  match parse_time (strip end_entry) with
  | None => format_error
  | Some end_ =>
  if geb start end_ then
    (app, Showerror "Invalid Input" "Start time must be before end time.")
  else
  match checked_days 0 day_vars with
  | None => (app, Raised)
  | Some days =>
  if bool_decide (days = []) then
    (app, Showerror "Invalid Input" "Select at least one day.")
  else
  match find_conflict days start end_ (self_classes app) with
  | Some (existing_name, shared_days) =>
      (app, Showwarning "Time Conflict" existing_name shared_days)
  | None =>
      let c := {| name := name; start := start; end_ := end_; days := days |} in
      update_class_list
        {| heap := assign (heap app) (classes app) (self_classes app ++ [c]);
           classes := classes app;
           class_listbox := class_listbox app;
           result_text := result_text app |}
  end end end end.

(** ** Sorting

    [list.sort(key=f)] is stable and compares keys with [<] only. On keys
    that [<] orders as a strict weak order, which holds for the times
    stored here, every stable sort returns the same list; insertion from
    the right stands for it. *)
Section Sort.
Context {A K : Type} (lt : K -> K -> bool) (key : A -> K).

(** [x] comes before every element of [l] in the original list, so it goes
    in front of the first element whose key is not smaller than its own. *)
Fixpoint insert_by (x : A) (l : list A) : list A :=
  match l with
  | [] => [x]
  | y :: l' => if lt (key y) (key x) then y :: insert_by x l' else x :: y :: l'
  end.

Fixpoint sort_by (l : list A) : list A :=
  match l with
  | [] => []
  | x :: l' => insert_by x (sort_by l')
  end.

(** [a] does not come after [b]: the key of [b] is not smaller. *)
Definition not_after (a b : A) : Prop := lt (key b) (key a) = false.

(** [a] and [x0] are tied: neither key is smaller. *)
Definition tied (x0 a : A) : Prop := not_after a x0 ∧ not_after x0 a.

#[global] Instance tied_dec x0 a : Decision (tied x0 a).
Proof. unfold tied, not_after. apply _. Defined.

End Sort.

(** [l.index(x)] *)
Fixpoint index (l : list string) (x : string) : option nat :=
  match l with
  | [] => None
  | y :: l' => if bool_decide (y = x) then Some 0%nat else S <$> index l' x
  end.

(** [<] on the tuples [(int, float)]: the first components that differ
    under [==] decide. *)
Definition tuple_lt (a b : nat * float) : bool :=
  if negb (Nat.eqb a.1 b.1) then Nat.ltb a.1 b.1
  else if negb (eqb a.2 b.2) then ltb a.2 b.2
  else false.

(** [lambda x: (DAYS.index(x[0]), x[1]['start'])]. Every [x[0]] was drawn
    from [DAYS] by the loop that built the list, so [index] finds it; for a
    string outside [DAYS] the model takes [len(DAYS)]. *)
Definition selected_key (x : string * ClassEntry) : nat * float :=
  (default (length DAYS) (index DAYS x.1), start x.2).

(** ** [select_classes] *)

(** The inner loop: [last_end] and [selected] as they pass through the
    remaining [day_classes]. *)
Fixpoint scan (day : string) (day_classes : list ClassEntry)
    (last_end : float) (selected : list (string * ClassEntry))
    : list (string * ClassEntry) :=
  match day_classes with
  | [] => selected
  | c :: cs =>
      if geb (start c) last_end
      then scan day cs (end_ c) (selected ++ [(day, c)])
      else scan day cs last_end selected
  end.

(** One round of the outer loop. The comprehension builds a new list
    object, [sort] reorders that object in place, and the inner loop reads
    it back. *)
Definition day_step (self_classes : nat) (day : string)
    (st : heap_t * list (string * ClassEntry))
    : heap_t * list (string * ClassEntry) :=
  let '(h, selected) := st in
  let '(day_classes, h) :=
    alloc h (filter (fun c => day ∈ days c) (deref h self_classes)) in
  let h := assign h day_classes (sort_by ltb end_ (deref h day_classes)) in
  (h, scan day (deref h day_classes) (of_Z (-1)) selected).

(** Lines 121-131: the heap and [selected] after the final sort. *)
Definition selected (app : App) : heap_t * list (string * ClassEntry) :=
  let '(h, selected) :=
    foldl (fun st day => day_step (classes app) day st) (heap app, []) DAYS in
  (h, sort_by tuple_lt selected_key selected).

(** The display loop of [select_classes]; it stops where [int()] raises. *)
Fixpoint render (sel : list (string * ClassEntry)) (current_day : option string)
    (text : string) : string * event :=
  match sel with
  | [] => (text, Completed)
  | (day, c) :: sel' =>
      let text :=
        if bool_decide (Some day ≠ current_day)
        then text +:+ nl +:+ day +:+ ":" +:+ nl else text in
      match format_time (start c), format_time (end_ c) with
      | Some start_str, Some end_str =>
          render sel' (Some day)
            (text +:+ "  " +:+ name c +:+ ": " +:+ start_str +:+ " - "
             +:+ end_str +:+ nl)
      | _, _ => (text, Raised)
      end
  end.

Definition select_classes (app : App) : App * event :=
  let '(h, sel) := selected app in
  let '(text, ev) :=
    if bool_decide (sel = []) then ("No classes selected."%string, Completed)
    else render sel None EmptyString in
  ({| heap := h; classes := classes app;
      class_listbox := class_listbox app; result_text := text |}, ev).

(** * Specification-level definitions *)

(** ** Clock times and their order *)

(** [hour + minute / 60], the value [parse_time] returns. *)
Definition time_of (hour minute : Z) : float :=
  add (of_Z hour) (div (of_Z minute) (of_Z 60)).

(** The time [k] minutes after midnight. *)
Definition clock (k : Z) : float := time_of (k / 60) (k `mod` 60).

(** The values a stored time can take: the 1440 clock times. *)
Definition is_clock (x : float) : Prop := ∃ k, 0 <= k < 1440 ∧ x = clock k.

(** Finite numbers in canonical binary64 form. *)
Definition finite_valid (x : float) : bool :=
  match x with
  | S754_zero _ => true
  | S754_finite _ m e => bounded prec emax m e
  | _ => false
  end.

(** Every clock time is a canonical finite number in [0, 24). *)
Definition clock_ok (k : Z) : bool :=
  finite_valid (clock k) && leb (of_Z 0) (clock k) && ltb (clock k) (of_Z 24).

(** The rational [hour + minute / 60]. *)
Definition exact_time (hour minute : Z) : Q :=
  (inject_Z hour + inject_Z minute / 60)%Q.

(** [time_of hour minute] is within [2^-48] of [hour + minute / 60]. *)
Definition near (hour minute : Z) : bool :=
  Qle_bool (Qabs (to_Q (time_of hour minute) - exact_time hour minute))
    (1 # 2 ^ 48).

(** ** The strings [parse_time] accepts *)

(** The value of a decimal digit. *)
Definition dv (c : ascii) : Z := ord c - 48.

(** The format as the specification words it: [H:MM] or [HH:MM], the hour
    in 0-23 with one or two digits, the minute in 00-59 with exactly two;
    the result is the hour and the minute. *)
Definition hhmm (s : string) : option (Z * Z) :=
  match s with
  | String h (String c (String m1 (String m2 EmptyString))) =>
      if is_digit h && (ord c =? 58) && is_digit m1 && is_digit m2
         && (10 * dv m1 + dv m2 <? 60)
      then Some (dv h, 10 * dv m1 + dv m2) else None
  | String h1 (String h2 (String c (String m1 (String m2 EmptyString)))) =>
      if is_digit h1 && is_digit h2 && (ord c =? 58) && is_digit m1 && is_digit m2
         && (10 * dv h1 + dv h2 <? 24) && (10 * dv m1 + dv m2 <? 60)
      then Some (10 * dv h1 + dv h2, 10 * dv m1 + dv m2) else None
  | _ => None
  end.

(** [s] without the newline it may end with. *)
Fixpoint chomp (s : string) : string :=
  match s with
  | EmptyString => EmptyString
  | String c EmptyString => if ord c =? 10 then EmptyString else s
  | String c s' => String c (chomp s')
  end.

(** ** Well-formed states *)

(** A time [parse_time] returns for a string of the format. *)
Definition is_time (x : float) : Prop :=
  ∃ s, is_Some (hhmm s) ∧ parse_time s = Some x.

(** The data-model invariant of a stored class. *)
Record wf_entry (c : ClassEntry) : Prop := {
  wf_name : name c ≠ EmptyString;
  wf_start : is_time (start c);
  wf_end : is_time (end_ c);
  wf_start_range : leb (of_Z 0) (start c) = true ∧ ltb (start c) (of_Z 24) = true;
  wf_end_range : leb (of_Z 0) (end_ c) = true ∧ ltb (end_ c) (of_Z 24) = true;
  wf_order : ltb (start c) (end_ c) = true;
  wf_days_nonempty : days c ≠ [];
  wf_days : days c ⊆ DAYS;
}.

(** [self.classes] refers to a list object of the heap. *)
Definition ref_ok (app : App) : Prop := (classes app < length (heap app))%nat.

Definition Inv (app : App) : Prop :=
  ref_ok app ∧ Forall wf_entry (self_classes app).

(** The callbacks and the refresh they share. *)
Inductive op :=
| Add_class (name_entry start_entry end_entry : string) (day_vars : list Z)
| Select_classes
| Update_class_list.

Definition step (o : op) (app : App) : App :=
  match o with
  | Add_class n s e vars => (add_class n s e vars app).1
  | Select_classes => (select_classes app).1
  | Update_class_list => (update_class_list app).1
  end.

(** The object after a sequence of operations on the initial one. *)
Definition run (ops : list op) : App :=
  foldl (fun app o => step o app) init ops.

(** ** The selection, day by day *)

(** The stored classes that meet on [day], in insertion order. *)
Definition on_day (day : string) (cs : list ClassEntry) : list ClassEntry :=
  filter (fun c => day ∈ days c) cs.

(** What [day_classes] holds after its sort. *)
Definition day_sorted (day : string) (cs : list ClassEntry) : list ClassEntry :=
  sort_by ltb end_ (on_day day cs).

(** The greedy scan in the words of the specification: a candidate is
    accepted when its start is not before [last_end], and then its end
    becomes the new [last_end]. *)
Inductive greedy : float -> list ClassEntry -> list ClassEntry -> Prop :=
| greedy_nil last_end : greedy last_end [] []
| greedy_accept last_end c cs chosen :
    geb (start c) last_end = true ->
    greedy (end_ c) cs chosen ->
    greedy last_end (c :: cs) (c :: chosen)
| greedy_skip last_end c cs chosen :
    geb (start c) last_end = false ->
    greedy last_end cs chosen ->
    greedy last_end (c :: cs) chosen.

(** The classes the inner loop accepts, as a function. *)
Fixpoint accepted (last_end : float) (cs : list ClassEntry) : list ClassEntry :=
  match cs with
  | [] => []
  | c :: cs' =>
      if geb (start c) last_end then c :: accepted (end_ c) cs'
      else accepted last_end cs'
  end.

(** The classes chosen for [day]. *)
Definition chosen (day : string) (cs : list ClassEntry) : list ClassEntry :=
  accepted (of_Z (-1)) (day_sorted day cs).

(** The part of a selection that belongs to [day]. *)
Definition chosen_for (day : string) (sel : list (string * ClassEntry))
    : list ClassEntry :=
  (filter (fun x => x.1 = day) sel).*2.

(** Two classes whose times overlap, as [add_class] tests it. *)
Definition overlap (a b : ClassEntry) : bool :=
  times_overlap (start a) (end_ a) (start b) (end_ b).

(** No two members of [l] overlap. *)
Definition non_overlapping (l : list ClassEntry) : Prop :=
  ForallOrdPairs (fun a b => overlap a b = false) l.

(** [l'] is [l] sorted by end time, ties in insertion order: [l'] holds
    the classes of [l], ends ascending, and the classes that end when a
    given member of [l] ends come in the order they have in [l]. *)
Definition stable_sorted_by_end (l l' : list ClassEntry) : Prop :=
  l' ≡ₚ l
  ∧ StronglySorted (fun a b => leb (end_ a) (end_ b) = true) l'
  ∧ ∀ x0, x0 ∈ l →
      filter (fun c => eqb (end_ c) (end_ x0) = true) l'
      = filter (fun c => eqb (end_ c) (end_ x0) = true) l.

(** The order of a selection: by position of the day in [DAYS], then by
    start time. *)
Definition key_le (a b : string * ClassEntry) : Prop :=
  match index DAYS a.1, index DAYS b.1 with
  | Some i, Some j =>
      (i < j)%nat ∨ (i = j ∧ leb (start a.2) (start b.2) = true)
  | _, _ => False
  end.

(** The selection before its final sort: the chosen classes of each day,
    the days in the order of [DAYS]. *)
Definition by_day (cs : list ClassEntry) : list (string * ClassEntry) :=
  DAYS ≫= fun day => pair day <$> chosen day cs.

(** The facts about a stored class that the order arguments use: its
    times are canonical finite numbers, the start is not negative and
    lies before the end, in exact arithmetic. *)
Definition timed (c : ClassEntry) : Prop :=
  finite_valid (start c) = true ∧ finite_valid (end_ c) = true
  ∧ 0 <= scaled (start c) < scaled (end_ c).

(** [a] comes strictly before [b] in a selection: an earlier day, or the
    same day and an earlier start in exact arithmetic. *)
Definition strictly_before (a b : string * ClassEntry) : Prop :=
  ((selected_key a).1 < (selected_key b).1)%nat
  ∨ ((selected_key a).1 = (selected_key b).1
     ∧ scaled (start a.2) < scaled (start b.2)).

(** ** Rejections and conflicts *)

(** The callback gave up with a message box: a format error, a validation
    error or a conflict. *)
Definition rejected (ev : event) : Prop :=
  match ev with
  | Showerror _ _ | Showwarning _ _ _ => True
  | Completed | Raised => False
  end.

(** The stored class [E] shares a day with a candidate that meets on
    [days0]. *)
Definition shares_day (days0 : list string) (E : ClassEntry) : Prop :=
  ∃ d, d ∈ days0 ∧ d ∈ days E.

(** The half-open intervals [[start0, end0)] and [[start E, end E)]
    overlap: each starts before the other ends. *)
Definition half_open_overlap (start0 end0 : float) (E : ClassEntry) : Prop :=
  ltb start0 (end_ E) = true ∧ ltb (start E) end0 = true.

Definition conflicts (days0 : list string) (start0 end0 : float)
    (E : ClassEntry) : Prop :=
  shares_day days0 E ∧ half_open_overlap start0 end0 E.

(** What [add_class] does, by cases on its checks. *)
Inductive add_class_cases (name_entry start_entry end_entry : string)
    (day_vars : list Z) (app : App) : App * event → Prop :=
| add_empty_name :
    strip name_entry = EmptyString →
    add_class_cases name_entry start_entry end_entry day_vars app
      (app, Showerror "Invalid Input" "Class name cannot be empty.")
| add_bad_time :
    strip name_entry ≠ EmptyString →
    parse_time (strip start_entry) = None
    ∨ parse_time (strip end_entry) = None →
    add_class_cases name_entry start_entry end_entry day_vars app
      (app, Showerror "Invalid Input" "Time must be in HH:MM 24-hour format")
| add_bad_order start0 end0 :
    strip name_entry ≠ EmptyString →
    parse_time (strip start_entry) = Some start0 →
    parse_time (strip end_entry) = Some end0 →
    geb start0 end0 = true →
    add_class_cases name_entry start_entry end_entry day_vars app
      (app, Showerror "Invalid Input" "Start time must be before end time.")
| add_index_error start0 end0 :
    strip name_entry ≠ EmptyString →
    parse_time (strip start_entry) = Some start0 →
    parse_time (strip end_entry) = Some end0 →
    geb start0 end0 = false →
    checked_days 0 day_vars = None →
    add_class_cases name_entry start_entry end_entry day_vars app (app, Raised)
| add_no_days start0 end0 :
    strip name_entry ≠ EmptyString →
    parse_time (strip start_entry) = Some start0 →
    parse_time (strip end_entry) = Some end0 →
    geb start0 end0 = false →
    checked_days 0 day_vars = Some [] →
    add_class_cases name_entry start_entry end_entry day_vars app
      (app, Showerror "Invalid Input" "Select at least one day.")
| add_conflict start0 end0 days0 existing_name shared_days :
    strip name_entry ≠ EmptyString →
    parse_time (strip start_entry) = Some start0 →
    parse_time (strip end_entry) = Some end0 →
    geb start0 end0 = false →
    checked_days 0 day_vars = Some days0 → days0 ≠ [] →
    find_conflict days0 start0 end0 (self_classes app)
      = Some (existing_name, shared_days) →
    add_class_cases name_entry start_entry end_entry day_vars app
      (app, Showwarning "Time Conflict" existing_name shared_days)
| add_appended start0 end0 days0 :
    strip name_entry ≠ EmptyString →
    parse_time (strip start_entry) = Some start0 →
    parse_time (strip end_entry) = Some end0 →
    geb start0 end0 = false →
    checked_days 0 day_vars = Some days0 → days0 ≠ [] →
    find_conflict days0 start0 end0 (self_classes app) = None →
    add_class_cases name_entry start_entry end_entry day_vars app
      (update_class_list
         {| heap := assign (heap app) (classes app)
                      (self_classes app
                       ++ [{| name := strip name_entry; start := start0;
                              end_ := end0; days := days0 |}]);
            classes := classes app;
            class_listbox := class_listbox app;
            result_text := result_text app |}).

(** ** Example states *)

Definition Mon_only : list Z := [1; 0; 0; 0; 0; 0; 0].

(** Three classes on Monday: 09:00-10:00, 09:15-10:30 and 10:00-11:00. *)
Definition class_1 : ClassEntry :=
  {| name := "class-1"; start := time_of 9 0; end_ := time_of 10 0;
     days := ["Mon"%string] |}.
Definition class_2 : ClassEntry :=
  {| name := "class-2"; start := time_of 9 15; end_ := time_of 10 30;
     days := ["Mon"%string] |}.
Definition class_3 : ClassEntry :=
  {| name := "class-3"; start := time_of 10 0; end_ := time_of 11 0;
     days := ["Mon"%string] |}.

Definition three_on_Monday : App :=
  {| heap := [[class_1; class_2; class_3]]; classes := 0;
     class_listbox := []; result_text := EmptyString |}.

(** "Math" on Monday, Wednesday and Friday, 09:00-10:00, added to the
    initial object. *)
Definition with_math : App :=
  (add_class "Math" "09:00" "10:00" [1; 0; 1; 0; 1; 0; 0] init).1.

(** ** The form and the "Add Class" button *)

(** The widgets [add_class] reads: three entries and, from the loop of
    [__init__], one check-box variable for each element of [DAYS]. *)
Record Form := {
  name_entry : string;
  start_entry : string;
  end_entry : string;
  day_vars : list Z;
}.

(** The widgets after [__init__]: empty entries, every [IntVar] at 0. *)
Definition form_init : Form :=
  {| name_entry := EmptyString; start_entry := EmptyString;
     end_entry := EmptyString; day_vars := (fun _ => 0) <$> DAYS |}.

(** The whole of [add_class] as the button runs it: it reads the widgets,
    and after the class is stored and listed it empties the three entries
    and sets every check-box variable to 0. A return after a message box,
    or an exception, leaves the widgets as they are. *)
Definition add_class_button (g : Form * App) : (Form * App) * event :=
  let '(f, app) := g in
  let '(app', ev) :=
    add_class (name_entry f) (start_entry f) (end_entry f) (day_vars f) app in
  match ev with
  | Completed =>
      (({| name_entry := EmptyString; start_entry := EmptyString;
           end_entry := EmptyString;
           day_vars := (fun _ => 0) <$> day_vars f |}, app'), ev)
  | _ => ((f, app'), ev)
  end.

(** ** Display *)

(** The text [f"{h:02d}:{m:02d}"]. *)
Definition hh_mm (h m : Z) : string := fmt_02d h +:+ ":" +:+ fmt_02d m.

(** What the display code makes of the time [h:m]: its text, or the text
    of the minute before in the same hour; its own text when the minute is
    a multiple of 15. *)
Definition display_ok (k : Z) : bool :=
  let h := k / 60 in
  let m := k `mod` 60 in
  match format_time (time_of h m) with
  | Some s =>
      ((s =? hh_mm h m)%string || (1 <=? m) && (s =? hh_mm h (m - 1))%string)
      && implb (m `mod` 15 =? 0) (s =? hh_mm h m)%string
  | None => false
  end.

(** The text of [h:m] has the format and parses to the clock time [h:m],
    and the next clock time is larger. *)
Definition parse_ok (k : Z) : bool :=
  bool_decide (hhmm (hh_mm (k / 60) (k `mod` 60)) = Some (k / 60, k `mod` 60))
  && ltb (clock k) (clock (k + 1)).

(** A string of whitespace only. *)
Fixpoint all_space (s : string) : bool :=
  match s with
  | EmptyString => true
  | String c s' => is_space c && all_space s'
  end.

(** The row of the list box for a class, when its times can be shown. *)
Definition listbox_row (c : ClassEntry) : option string :=
  start_str ← format_time (start c);
  end_str ← format_time (end_ c);
  Some (name c +:+ ": " +:+ start_str +:+ " - " +:+ end_str
        +:+ " on " +:+ join ", " (days c)).

(** ** Reachable states *)

(** Two stored classes are compatible when they share no day or their
    times do not overlap. *)
Definition compatible (a b : ClassEntry) : Prop :=
  (∃ d, d ∈ days a ∧ d ∈ days b) → overlap a b = false.

(** No two stored classes that share a day overlap. *)
Definition conflict_free (cs : list ClassEntry) : Prop :=
  ForallOrdPairs compatible cs.

(** The class an input stands for when it passes the checks of
    [add_class] on the name, the times, their order and the days. *)
Definition candidate (name_entry start_entry end_entry : string)
    (day_vars : list Z) : option ClassEntry :=
  if bool_decide (strip name_entry = EmptyString) then None else
  match parse_time (strip start_entry), parse_time (strip end_entry) with
  | Some start0, Some end0 =>
      if geb start0 end0 then None else
      match checked_days 0 day_vars with
      | Some days0 =>
          if bool_decide (days0 = []) then None
          else Some {| name := strip name_entry; start := start0;
                       end_ := end0; days := days0 |}
      | None => None
      end
  | _, _ => None
  end.

(** ** Tactics *)

(** Boolean tests in the hypotheses, as propositions. *)
Ltac bools :=
  repeat match goal with
  | H : _ && _ = true |- _ => apply andb_prop in H as [? ?]
  | H : _ || _ = false |- _ => apply orb_false_iff in H as [? ?]
  | H : (_ <=? _) = true |- _ => apply Z.leb_le in H
  | H : (_ <=? _) = false |- _ => apply Z.leb_gt in H
  | H : (_ <? _) = true |- _ => apply Z.ltb_lt in H
  | H : (_ <? _) = false |- _ => apply Z.ltb_ge in H
  | H : (_ =? _) = true |- _ => apply Z.eqb_eq in H
  | H : (_ =? _) = false |- _ => apply Z.eqb_neq in H
  | H : _ && _ = false |- _ => apply andb_false_iff in H as [?|?]
  | H : _ || _ = true |- _ => apply orb_prop in H as [?|?]
  end.

(** Case analysis on the outermost test of the goal. *)
Ltac split_if :=
  match goal with
  | |- context [if ?b then _ else _] =>
      lazymatch b with
      | context [if _ then _ else _] => fail
      | _ => destruct b eqn:?
      end
  end.

(** * Properties *)

Lemma digits2_size m : digits2_pos m = Pos.size m.
Proof. induction m; simpl; congruence. Qed.

Lemma digits2_bounds m :
  2 ^ (Z.pos (digits2_pos m) - 1) <= Z.pos m < 2 ^ Z.pos (digits2_pos m).
Proof.
  rewrite digits2_size. split.
  - pose proof (Pos.size_le m) as H.
    assert (Z.pos (2 ^ Pos.size m) <= Z.pos m~0) by lia.
    rewrite Pos2Z.inj_pow in H0.
    replace (Z.pos (Pos.size m)) with (Z.succ (Z.pos (Pos.size m) - 1)) in H0 by lia.
    rewrite Z.pow_succ_r in H0 by lia. lia.
  - pose proof (Pos.size_gt m) as H.
    assert (Z.pos m < Z.pos (2 ^ Pos.size m)) by lia.
    now rewrite Pos2Z.inj_pow in H0.
Qed.

Lemma bounded_inv m e :
  bounded prec emax m e = true →
  -1074 <= e ∧ Z.pos (digits2_pos m) <= 53 ∧
  (-1074 < e → Z.pos (digits2_pos m) = 53).
Proof.
  unfold bounded, canonical_mantissa, fexp, SpecFloat.emin, prec, emax.
  intros [H1 H2]%andb_prop. apply Z.eqb_eq in H1. lia.
Qed.

Lemma scaled_abs_pos m e : -1074 <= e → 0 < Z.pos m * 2 ^ (e + 1074).
Proof. intros. apply Z.mul_pos_pos; [lia|]. apply Z.pow_pos_nonneg; lia. Qed.

Lemma scaled_finite s m e :
  -1074 <= e →
  scaled (S754_finite s m e)
  = if s then - (Z.pos m * 2 ^ (e + 1074)) else Z.pos m * 2 ^ (e + 1074).
Proof. intros. unfold scaled. by rewrite Z.shiftl_mul_pow2 by lia. Qed.

Lemma scaled_abs_lt m1 e1 m2 e2 :
  bounded prec emax m1 e1 = true → bounded prec emax m2 e2 = true → e1 < e2 →
  Z.pos m1 * 2 ^ (e1 + 1074) < Z.pos m2 * 2 ^ (e2 + 1074).
Proof.
  intros (He1 & Hd1 & _)%bounded_inv (He2 & _ & Hd2)%bounded_inv Hlt.
  specialize (Hd2 ltac:(lia)).
  pose proof (digits2_bounds m1) as [_ Hm1].
  pose proof (digits2_bounds m2) as [Hm2 _].
  rewrite Hd2 in Hm2.
  assert (Z.pos m1 < 2 ^ 53).
  { eapply Z.lt_le_trans; [exact Hm1|]. apply Z.pow_le_mono_r; lia. }
  replace (e2 + 1074) with ((e1 + 1074) + (e2 - e1)) by lia.
  rewrite (Z.pow_add_r 2 (e1 + 1074) (e2 - e1)) by lia.
  assert (HA : 0 < 2 ^ (e1 + 1074)) by (apply Z.pow_pos_nonneg; lia).
  assert (HB : 2 ^ 1 <= 2 ^ (e2 - e1)) by (apply Z.pow_le_mono_r; lia).
  change (2 ^ 1) with 2 in HB. change (53 - 1) with 52 in Hm2.
  change (2 ^ 53) with (2 * 2 ^ 52) in H.
  generalize dependent (2 ^ 52). generalize dependent (2 ^ (e2 - e1)).
  generalize dependent (2 ^ (e1 + 1074)). intros A HA B HB P HP1 HP2.
  assert (2 * P <= Z.pos m2 * B) by nia.
  apply Z.lt_le_trans with (2 * P * A); nia.
Qed.

Lemma compare_scaled x y :
  finite_valid x = true → finite_valid y = true →
  SFcompare x y = Some (scaled x ?= scaled y).
Proof.
  destruct x as [sx| | |sx mx ex], y as [sy| | |sy my ey];
    cbn [SFcompare finite_valid]; try done; intros Hx Hy.
  - rewrite (scaled_finite sy my ey) by apply (bounded_inv _ _ Hy).
    cbn [scaled].
    pose proof (scaled_abs_pos my ey (proj1 (bounded_inv _ _ Hy))).
    f_equal. destruct sy; symmetry; [apply Z.compare_gt_iff|apply Z.compare_lt_iff]; lia.
  - rewrite (scaled_finite sx mx ex) by apply (bounded_inv _ _ Hx).
    cbn [scaled].
    pose proof (scaled_abs_pos mx ex (proj1 (bounded_inv _ _ Hx))).
    f_equal. destruct sx; symmetry; [apply Z.compare_lt_iff|apply Z.compare_gt_iff]; lia.
  - rewrite (scaled_finite sx mx ex) by apply (bounded_inv _ _ Hx).
    rewrite (scaled_finite sy my ey) by apply (bounded_inv _ _ Hy).
    pose proof (scaled_abs_pos mx ex (proj1 (bounded_inv _ _ Hx))).
    pose proof (scaled_abs_pos my ey (proj1 (bounded_inv _ _ Hy))).
    f_equal.
    assert (Heq : ex = ey → Pos.compare_cont Eq mx my
        = (Z.pos mx * 2 ^ (ex + 1074) ?= Z.pos my * 2 ^ (ey + 1074))).
    { intros ->. rewrite <- Zmult_compare_compat_r by lia. reflexivity. }
    destruct sx, sy.
    + destruct (Z.compare_spec ex ey) as [E|E|E].
      * rewrite (Heq E), Z.compare_opp. symmetry. apply Z.compare_antisym.
      * pose proof (scaled_abs_lt _ _ _ _ Hx Hy E).
        symmetry. apply Z.compare_gt_iff. lia.
      * pose proof (scaled_abs_lt _ _ _ _ Hy Hx E).
        symmetry. apply Z.compare_lt_iff. lia.
    + symmetry. apply Z.compare_lt_iff. lia.
    + symmetry. apply Z.compare_gt_iff. lia.
    + destruct (Z.compare_spec ex ey) as [E|E|E].
      * exact (Heq E).
      * pose proof (scaled_abs_lt _ _ _ _ Hx Hy E).
        symmetry. apply Z.compare_lt_iff. lia.
      * pose proof (scaled_abs_lt _ _ _ _ Hy Hx E).
        symmetry. apply Z.compare_gt_iff. lia.
Qed.

Lemma leb_scaled x y :
  finite_valid x = true → finite_valid y = true →
  leb x y = (scaled x <=? scaled y).
Proof.
  intros Hx Hy. unfold leb, SFleb, Z.leb.
  rewrite (compare_scaled x y Hx Hy). by destruct (scaled x ?= scaled y).
Qed.

Lemma ltb_scaled x y :
  finite_valid x = true → finite_valid y = true →
  ltb x y = (scaled x <? scaled y).
Proof.
  intros Hx Hy. unfold ltb, SFltb, Z.ltb.
  rewrite (compare_scaled x y Hx Hy). by destruct (scaled x ?= scaled y).
Qed.

Lemma eqb_scaled x y :
  finite_valid x = true → finite_valid y = true →
  eqb x y = (scaled x =? scaled y).
Proof.
  intros Hx Hy. unfold eqb, SFeqb.
  rewrite (compare_scaled x y Hx Hy).
  destruct (Z.compare_spec (scaled x) (scaled y)); symmetry;
    [apply Z.eqb_eq | apply Z.eqb_neq | apply Z.eqb_neq]; lia.
Qed.

Lemma clock_table_ok : forallb clock_ok (seqZ 0 1440) = true.
Proof. vm_compute. reflexivity. Qed.

Lemma clock_ok_range k : 0 <= k < 1440 → clock_ok k = true.
Proof.
  intros Hk. pose proof clock_table_ok as H.
  rewrite forallb_forall in H. apply H, list_elem_of_In, elem_of_seqZ. lia.
Qed.

Lemma is_clock_valid x : is_clock x → finite_valid x = true.
Proof.
  intros (k & Hk & ->). pose proof (clock_ok_range k Hk) as H.
  unfold clock_ok in H. by repeat (apply andb_prop in H as [H ?]).
Qed.

Lemma is_clock_range x :
  is_clock x → leb (of_Z 0) x = true ∧ ltb x (of_Z 24) = true.
Proof.
  intros (k & Hk & ->). pose proof (clock_ok_range k Hk) as H.
  unfold clock_ok in H. by repeat (apply andb_prop in H as [H ?]).
Qed.

Lemma is_clock_nonneg x : is_clock x → 0 <= scaled x.
Proof.
  intros Hx. pose proof (is_clock_range x Hx) as [H _].
  rewrite leb_scaled in H by (done || by apply is_clock_valid).
  apply Z.leb_le in H. exact H.
Qed.

(** The sentinel [-1] of the inner loop. *)
Lemma sentinel_valid : finite_valid (of_Z (-1)) = true.
Proof. reflexivity. Qed.

Lemma sentinel_neg : scaled (of_Z (-1)) < 0.
Proof. by vm_compute. Qed.

(** [parse_time] accepts exactly the strings of that format, and the same
    followed by one newline. *)
Lemma parse_time_spec s :
  parse_time s = (fun p => time_of p.1 p.2) <$> hhmm (chomp s).
Proof.
  destruct s as [|c1 [|c2 [|c3 [|c4 [|c5 [|c6 [|c7 s]]]]]]].
  all: unfold parse_time, re_match, pattern.
  all: cbn -[of_Z add div time_of Z.mul Z.add].
  all: unfold is_digit, dv.
  all: change (ord "0") with 48; change (ord "1") with 49; change (ord "2") with 50;
       change (ord "3") with 51; change (ord "5") with 53; change (ord ":") with 58.
  all: rewrite ?orb_false_r.
  all: try reflexivity.
  all: repeat (split_if; unfold is_digit in *; bools; try lia; cbn -[of_Z add div time_of Z.mul Z.add]; try reflexivity).
  all: try (unfold time_of; repeat f_equal; lia).
  all: try (destruct s; reflexivity).
Qed.

(** ** Sorting *)

Section Sort_facts.
Context {A K : Type} (lt : K -> K -> bool) (key : A -> K).

Lemma insert_by_perm x l : insert_by lt key x l ≡ₚ x :: l.
Proof.
  induction l as [|y l IH]; simpl; [done|].
  destruct (lt (key y) (key x)); [|done].
  rewrite IH. apply Permutation_swap.
Qed.

Lemma sort_by_perm l : sort_by lt key l ≡ₚ l.
Proof.
  induction l as [|x l IH]; simpl; [done|].
  by rewrite insert_by_perm, IH.
Qed.

(** Sorting a list that is in order already changes nothing. *)
Lemma sort_by_sorted_id l : Sorted (not_after lt key) l → sort_by lt key l = l.
Proof.
  induction 1 as [|x l Hl IH Hx]; simpl; [done|].
  rewrite IH. destruct Hx as [|y l Hxy]; simpl; [done|].
  unfold not_after in Hxy. by rewrite Hxy.
Qed.

(** The facts that need [<] to be a strict weak order hold on the elements
    that satisfy [P]. *)
Context (P : A -> Prop).
Context (lt_asym : ∀ x y, P x → P y →
  lt (key x) (key y) = true → lt (key y) (key x) = false).
Context (not_after_trans : ∀ x y z, P x → P y → P z →
  not_after lt key x y → not_after lt key y z → not_after lt key x z).

Lemma insert_by_sorted x l :
  P x → Forall P l → StronglySorted (not_after lt key) l →
  StronglySorted (not_after lt key) (insert_by lt key x l).
Proof.
  intros Hx HP Hl. induction Hl as [|y l Hl IH Hy]; simpl.
  - repeat constructor.
  - apply Forall_cons in HP as [HPy HP].
    destruct (lt (key y) (key x)) eqn:E.
    + constructor; [by apply IH|].
      rewrite insert_by_perm. constructor; [|done].
      by apply lt_asym.
    + constructor; [by constructor|].
      constructor; [done|].
      rewrite Forall_forall in HP, Hy. apply Forall_forall. intros z Hz.
      apply (not_after_trans x y z); auto.
Qed.

Lemma sort_by_sorted l :
  Forall P l → StronglySorted (not_after lt key) (sort_by lt key l).
Proof.
  induction 1 as [|x l Hx Hl IH]; simpl; [constructor|].
  apply insert_by_sorted; [done| |done].
  by rewrite sort_by_perm.
Qed.

(** Stability: the elements tied with [x0] keep their order. *)
Lemma insert_by_stable x0 x l :
  P x0 → P x → Forall P l →
  filter (tied lt key x0) (insert_by lt key x l) = filter (tied lt key x0) (x :: l).
Proof.
  intros H0 Hx. induction 1 as [|y l Hy Hl IH]; simpl; [done|].
  destruct (lt (key y) (key x)) eqn:E; [|done].
  rewrite filter_cons, IH, !filter_cons.
  destruct (decide (tied lt key x0 x)) as [Tx|]; [|done].
  destruct (decide (tied lt key x0 y)) as [Ty|]; [|done].
  exfalso. destruct Tx as [Tx _], Ty as [_ Ty].
  pose proof (not_after_trans x x0 y Hx H0 Hy Tx Ty) as Hc.
  unfold not_after in Hc. congruence.
Qed.

Lemma sort_by_stable x0 l :
  P x0 → Forall P l →
  filter (tied lt key x0) (sort_by lt key l) = filter (tied lt key x0) l.
Proof.
  intros H0. induction 1 as [|x l Hx Hl IH]; simpl; [done|].
  rewrite insert_by_stable; [|done..|by rewrite sort_by_perm].
  by rewrite !filter_cons, IH.
Qed.

End Sort_facts.

(** ** Parsed times are clock times *)

Lemma hhmm_range s h m : hhmm s = Some (h, m) → 0 <= h < 24 ∧ 0 <= m < 60.
Proof.
  unfold hhmm, is_digit, dv. intros H.
  repeat (case_match; try discriminate); simplify_eq; bools; lia.
Qed.

Lemma clock_time_of h m :
  0 <= h < 24 → 0 <= m < 60 → time_of h m = clock (60 * h + m).
Proof.
  intros Hh Hm. unfold clock. f_equal.
  - apply (Z.div_unique _ _ _ m); lia.
  - apply (Z.mod_unique _ _ h); lia.
Qed.

Lemma hhmm_chomp s p : hhmm s = Some p → chomp s = s.
Proof.
  unfold hhmm, is_digit.
  destruct s as [|c1 [|c2 [|c3 [|c4 [|c5 [|c6 s]]]]]]; try done; simpl.
  - intros H. destruct (ord c4 =? 10) eqn:E; [|done].
    apply Z.eqb_eq in E. rewrite E in H.
    by rewrite !andb_false_r in H.
  - intros H. destruct (ord c5 =? 10) eqn:E; [|done].
    apply Z.eqb_eq in E. rewrite E in H.
    by rewrite !andb_false_r in H.
Qed.

(** Whatever [parse_time] returns, it returns for a string of the format:
    the argument, or the argument without its final newline. *)
Lemma parse_time_is_time s x : parse_time s = Some x → is_time x.
Proof.
  intros Hs. rewrite parse_time_spec in Hs.
  destruct (hhmm (chomp s)) as [p|] eqn:E; [|done].
  exists (chomp s). split; [by rewrite E|].
  by rewrite parse_time_spec, (hhmm_chomp _ _ E), E.
Qed.

Lemma is_time_clock x : is_time x → is_clock x.
Proof.
  intros (s & _ & Hs). rewrite parse_time_spec in Hs.
  destruct (hhmm (chomp s)) as [[h m]|] eqn:E; [|done].
  simpl in Hs. injection Hs as <-.
  apply hhmm_range in E as [Hh Hm].
  exists (60 * h + m). split; [lia|]. by apply clock_time_of.
Qed.

Lemma wf_entry_timed c : wf_entry c → timed c.
Proof.
  intros [_ Hs He _ _ Hlt _ _].
  apply is_time_clock in Hs, He.
  pose proof (is_clock_valid _ Hs) as Vs.
  pose proof (is_clock_valid _ He) as Ve.
  pose proof (is_clock_nonneg _ Hs).
  rewrite ltb_scaled in Hlt by done. apply Z.ltb_lt in Hlt.
  by repeat split.
Qed.

Lemma Forall_wf_timed cs : Forall wf_entry cs → Forall timed cs.
Proof. intros H. eapply Forall_impl; [exact H|apply wf_entry_timed]. Qed.

(** Comparisons of the times of [timed] classes, and of the sentinel, in
    exact arithmetic. *)
Lemma geb_scaled x y :
  finite_valid x = true → finite_valid y = true →
  geb x y = (scaled y <=? scaled x).
Proof. intros. unfold geb. by apply leb_scaled. Qed.

Lemma overlap_scaled a b :
  timed a → timed b →
  overlap a b = true
  ↔ scaled (start a) < scaled (end_ b) ∧ scaled (start b) < scaled (end_ a).
Proof.
  intros (? & ? & ?) (? & ? & ?). unfold overlap, times_overlap.
  rewrite !leb_scaled by done.
  rewrite negb_true_iff, orb_false_iff, !Z.leb_gt. tauto.
Qed.

(** ** The sort of [day_classes] *)

Lemma timed_lt_asym (x y : ClassEntry) :
  timed x → timed y →
  ltb (end_ x) (end_ y) = true → ltb (end_ y) (end_ x) = false.
Proof.
  intros (_ & ? & _) (_ & ? & _). rewrite !ltb_scaled by done.
  rewrite Z.ltb_lt, Z.ltb_ge. lia.
Qed.

Lemma timed_not_after (x y : ClassEntry) :
  timed x → timed y →
  not_after ltb end_ x y ↔ scaled (end_ x) <= scaled (end_ y).
Proof.
  intros (_ & ? & _) (_ & ? & _). unfold not_after.
  rewrite ltb_scaled by done. by rewrite Z.ltb_ge.
Qed.

Lemma timed_not_after_trans (x y z : ClassEntry) :
  timed x → timed y → timed z →
  not_after ltb end_ x y → not_after ltb end_ y z → not_after ltb end_ x z.
Proof. intros ???. rewrite !timed_not_after by done. lia. Qed.

Lemma StronglySorted_weaken {A} (P : A → Prop) (R R' : A → A → Prop) l :
  (∀ x y, P x → P y → R x y → R' x y) →
  Forall P l → StronglySorted R l → StronglySorted R' l.
Proof.
  intros HR HP Hl. induction Hl as [|x l Hl IH Hx]; [constructor|].
  apply Forall_cons in HP as [Px HP]. constructor; [by apply IH|].
  rewrite Forall_forall in Hx, HP. apply Forall_forall. intros y Hy.
  apply HR; auto.
Qed.

Lemma Forall_subseteq {A} (P : A → Prop) (l1 l2 : list A) :
  l1 ⊆ l2 → Forall P l2 → Forall P l1.
Proof. rewrite !Forall_forall. intros Hs H x Hx. by apply H, Hs. Qed.

Lemma on_day_timed day cs : Forall timed cs → Forall timed (on_day day cs).
Proof. apply Forall_subseteq, list_subseteq_filter. Qed.

Lemma day_sorted_perm day cs : day_sorted day cs ≡ₚ on_day day cs.
Proof. apply sort_by_perm. Qed.

Lemma day_sorted_timed day cs : Forall timed cs → Forall timed (day_sorted day cs).
Proof. intros H. rewrite day_sorted_perm. by apply on_day_timed. Qed.

Lemma day_sorted_ends day cs :
  Forall timed cs →
  StronglySorted (fun a b => scaled (end_ a) <= scaled (end_ b))
    (day_sorted day cs).
Proof.
  intros H.
  apply (StronglySorted_weaken timed (not_after ltb end_)).
  - intros x y ??. by rewrite timed_not_after.
  - by apply day_sorted_timed.
  - apply (sort_by_sorted ltb end_ timed).
    + apply timed_lt_asym.
    + apply timed_not_after_trans.
    + by apply on_day_timed.
Qed.

(** ** The greedy scan *)

Lemma scan_accepted day cs last_end sel :
  scan day cs last_end sel = sel ++ (pair day <$> accepted last_end cs).
Proof.
  revert last_end sel. induction cs as [|c cs IH]; intros last_end sel; simpl.
  - by rewrite app_nil_r.
  - destruct (geb (start c) last_end); [|done].
    rewrite IH. by rewrite <- app_assoc.
Qed.

Lemma accepted_greedy last_end cs : greedy last_end cs (accepted last_end cs).
Proof.
  revert last_end. induction cs as [|c cs IH]; intros last_end; simpl.
  - constructor.
  - destruct (geb (start c) last_end) eqn:E; by constructor.
Qed.

Lemma greedy_accepted last_end cs chosen :
  greedy last_end cs chosen → chosen = accepted last_end cs.
Proof. induction 1; simpl; rewrite ?H; congruence. Qed.

Lemma accepted_sublist last_end cs : accepted last_end cs `sublist_of` cs.
Proof.
  revert last_end. induction cs as [|c cs IH]; intros last_end; simpl; [done|].
  destruct (geb (start c) last_end).
  - by apply sublist_skip.
  - by apply sublist_cons.
Qed.

(** Every accepted class starts at or after [last_end], and at or after
    the end of every class accepted before it. *)
Lemma accepted_chain last_end cs :
  finite_valid last_end = true → Forall timed cs →
  Forall (fun c => scaled last_end <= scaled (start c)) (accepted last_end cs)
  ∧ StronglySorted (fun a b => scaled (end_ a) <= scaled (start b))
      (accepted last_end cs).
Proof.
  intros Hl Hcs. revert last_end Hl.
  induction Hcs as [|c cs Hc Hcs IH]; intros last_end Hl; cbn [accepted].
  - split; constructor.
  - pose proof Hc as (Vs & Ve & Hse).
    rewrite geb_scaled by done.
    destruct (Z.leb_spec (scaled last_end) (scaled (start c))) as [Hle|Hgt].
    + destruct (IH (end_ c) Ve) as [IH1 IH2]. split.
      * constructor; [done|].
        eapply Forall_impl; [exact IH1|]. simpl. intros; lia.
      * by constructor.
    + by apply IH.
Qed.

Lemma StronglySorted_pairs {A} (R : A → A → Prop) l :
  StronglySorted R l → ForallOrdPairs R l.
Proof. induction 1; constructor; auto. Qed.

Lemma ForallOrdPairs_filter {A} (R : A → A → Prop) (P : A → Prop)
    `{!∀ x, Decision (P x)} l :
  ForallOrdPairs R l → ForallOrdPairs R (filter P l).
Proof.
  induction 1 as [|x l Hx Hl IH]; [constructor|].
  rewrite filter_cons. destruct (decide (P x)); [|done].
  constructor; [|done]. eapply Forall_subseteq; [apply list_subseteq_filter|done].
Qed.

Lemma accepted_timed last_end cs :
  Forall timed cs → Forall timed (accepted last_end cs).
Proof. apply Forall_subseteq, sublist_subseteq, accepted_sublist. Qed.

Lemma accepted_disjoint last_end cs :
  finite_valid last_end = true → Forall timed cs →
  non_overlapping (accepted last_end cs).
Proof.
  intros Hl Hcs. destruct (accepted_chain last_end cs Hl Hcs) as [_ H].
  apply StronglySorted_pairs.
  eapply (StronglySorted_weaken timed); [|by apply accepted_timed|exact H].
  simpl. intros a b Ha Hb Hab.
  destruct (overlap a b) eqn:E; [|done].
  apply overlap_scaled in E as [? ?]; [|done..].
  destruct Ha as (_ & _ & ?), Hb as (_ & _ & ?). lia.
Qed.

(** Two classes that both start before [t] and end at or after [t]
    overlap. *)
Lemma overlap_across t a b :
  timed a → timed b →
  scaled (start a) < t <= scaled (end_ a) →
  scaled (start b) < t <= scaled (end_ b) →
  overlap a b = true.
Proof. intros Ha Hb ??. apply overlap_scaled; [done..|lia]. Qed.

(** The exchange argument: no disjoint choice among classes sorted by end
    beats the greedy scan. *)
Lemma accepted_max cs :
  Forall timed cs →
  StronglySorted (fun a b => scaled (end_ a) <= scaled (end_ b)) cs →
  ∀ last_end S,
    finite_valid last_end = true →
    S ⊆ cs → non_overlapping S →
    Forall (fun c => scaled last_end <= scaled (start c)) S →
    (length S <= length (accepted last_end cs))%nat.
Proof.
  intros Hcs Hsorted.
  induction Hsorted as [|c cs Hsorted IH Hc]; intros last_end S Hl HS HD Hlast.
  - destruct S as [|x S]; [done|]. exfalso.
    apply (not_elem_of_nil x), HS. by left.
  - apply Forall_cons in Hcs as [Tc Hcs]. specialize (IH Hcs).
    pose proof Tc as (Vs & Ve & Hse). cbn [accepted].
    rewrite geb_scaled by done.
    assert (HST : Forall timed S).
    { eapply Forall_subseteq; [exact HS|]. by constructor. }
    destruct (Z.leb_spec (scaled last_end) (scaled (start c))) as [Hle|Hgt].
    + (* [c] is accepted: at most one member of [S] starts before it ends *)
      set (late := fun x : ClassEntry => scaled (end_ c) <= scaled (start x)).
      pose proof (filter_app_complement late S) as Hsplit.
      apply Permutation_length in Hsplit. rewrite length_app in Hsplit.
      assert (Hlate : (length (filter late S) <= length (accepted (end_ c) cs))%nat).
      { apply IH; [done| |by apply ForallOrdPairs_filter|].
        - intros x [Hx Hin]%list_elem_of_filter.
          apply HS, elem_of_cons in Hin as [->|Hin]; [|done].
          unfold late in Hx. lia.
        - apply Forall_forall. by intros x [Hx _]%list_elem_of_filter. }
      assert (Hearly : (length (filter (fun x => ¬ late x) S) <= 1)%nat).
      { pose proof (ForallOrdPairs_filter _ (fun x => ¬ late x) S HD) as HE.
        assert (Hin : ∀ x, x ∈ filter (fun x => ¬ late x) S →
                  timed x ∧ scaled (start x) < scaled (end_ c) <= scaled (end_ x)).
        { intros x [Hx Hin]%list_elem_of_filter. unfold late in Hx.
          split; [by eapply Forall_forall in HST|].
          split; [lia|].
          apply HS, elem_of_cons in Hin as [->|Hin]; [lia|].
          by eapply Forall_forall in Hc. }
        destruct (filter (fun x => ¬ late x) S) as [|x [|y l]]; simpl; [lia..|].
        exfalso. inversion HE as [|? ? Hx _]; subst.
        apply Forall_forall with (x := y) in Hx; [|by left].
        destruct (Hin x) as [Tx ?]; [by left|].
        destruct (Hin y) as [Ty ?]; [by right; left|].
        rewrite (overlap_across (scaled (end_ c)) x y) in Hx by done.
        discriminate. }
      simpl. lia.
    + (* [c] is skipped, and [S] cannot contain it *)
      apply IH; [done| |done..].
      intros x Hx. pose proof (HS x Hx) as [->|Hin]%elem_of_cons; [|done].
      eapply Forall_forall in Hlast; [|exact Hx]. lia.
Qed.

(** ** The heap during [select_classes] *)

Lemma deref_app_l (h h' : heap_t) r :
  (r < length h)%nat → deref (h ++ h') r = deref h r.
Proof. intros. unfold deref. by rewrite lookup_total_app_l. Qed.

Lemma deref_alloc (h : heap_t) l : deref (h ++ [l]) (length h) = l.
Proof. unfold deref. by rewrite list_lookup_total_middle. Qed.

Lemma assign_alloc (h : heap_t) l l' : assign (h ++ [l]) (length h) l' = h ++ [l'].
Proof.
  unfold assign. rewrite insert_app_r_alt by lia.
  by rewrite Nat.sub_diag.
Qed.

(** One round of the outer loop adds one list object, leaves the others
    as they are and appends the classes chosen for that day. *)
Lemma day_step_spec self day h sel :
  (self < length h)%nat →
  day_step self day (h, sel)
  = (h ++ [day_sorted day (deref h self)],
     sel ++ (pair day <$> chosen day (deref h self))).
Proof.
  intros Hself. unfold day_step, alloc.
  rewrite deref_alloc, assign_alloc, deref_alloc, scan_accepted.
  reflexivity.
Qed.

Lemma days_loop_spec self ds h sel :
  (self < length h)%nat →
  foldl (fun st day => day_step self day st) (h, sel) ds
  = (h ++ ((fun day => day_sorted day (deref h self)) <$> ds),
     sel ++ (ds ≫= fun day => pair day <$> chosen day (deref h self))).
Proof.
  intros Hself. revert h sel Hself.
  induction ds as [|d ds IH]; intros h sel Hself.
  - simpl. by rewrite !app_nil_r.
  - cbn [foldl]. rewrite day_step_spec by done.
    rewrite IH by (rewrite length_app; lia).
    rewrite deref_app_l by done.
    rewrite fmap_cons, bind_cons.
    by rewrite <- !app_assoc.
Qed.

Lemma selected_spec app :
  ref_ok app →
  selected app
  = (heap app ++ ((fun day => day_sorted day (self_classes app)) <$> DAYS),
     sort_by tuple_lt selected_key (by_day (self_classes app))).
Proof.
  intros Href. unfold selected.
  rewrite days_loop_spec by done. reflexivity.
Qed.

(** ** The final sort *)

Lemma chosen_timed day cs : Forall timed cs → Forall timed (chosen day cs).
Proof. intros H. by apply accepted_timed, day_sorted_timed. Qed.

(** Within a day the chosen classes start strictly later and later. *)
Lemma chosen_starts day cs :
  Forall timed cs →
  StronglySorted (fun a b => scaled (start a) < scaled (start b))
    (chosen day cs).
Proof.
  intros H.
  destruct (accepted_chain (of_Z (-1)) (day_sorted day cs)) as [_ Hs];
    [done|by apply day_sorted_timed|].
  eapply (StronglySorted_weaken timed); [|by apply chosen_timed|exact Hs].
  simpl. intros a b (_ & _ & ?) _ ?. lia.
Qed.

Lemma DAYS_sorted :
  StronglySorted
    (fun d d' => (default (length DAYS) (index DAYS d)
                  < default (length DAYS) (index DAYS d'))%nat) DAYS.
Proof. repeat constructor; vm_compute; lia. Qed.

Lemma bind_days_sorted (f : string → list ClassEntry) ds :
  StronglySorted
    (fun d d' => (default (length DAYS) (index DAYS d)
                  < default (length DAYS) (index DAYS d'))%nat) ds →
  (∀ d, StronglySorted (fun a b => scaled (start a) < scaled (start b)) (f d)) →
  StronglySorted strictly_before (ds ≫= fun d => pair d <$> f d).
Proof.
  intros Hds Hf. induction Hds as [|d ds Hds IH Hd].
  - constructor.
  - rewrite bind_cons. apply StronglySorted_app; split_and!; [|..|done].
    + intros a b (ca & -> & Ha)%list_elem_of_fmap
        (d' & (cb & -> & Hb)%list_elem_of_fmap & Hd')%list_elem_of_bind.
      left. simpl. eapply Forall_forall in Hd; [exact Hd|done].
    + specialize (Hf d). induction Hf as [|c l Hl IHl Hc]; [constructor|].
      rewrite fmap_cons. constructor; [done|].
      apply Forall_fmap. eapply Forall_impl; [exact Hc|].
      intros b ?. right. by split.
Qed.

Lemma by_day_sorted cs :
  Forall timed cs → StronglySorted strictly_before (by_day cs).
Proof.
  intros H. apply bind_days_sorted; [apply DAYS_sorted|].
  intros d. by apply chosen_starts.
Qed.

Lemma by_day_timed cs :
  Forall timed cs → Forall (fun x => timed x.2) (by_day cs).
Proof.
  intros H. apply Forall_forall.
  intros x (d & (c & -> & Hc)%list_elem_of_fmap & _)%list_elem_of_bind.
  simpl. eapply Forall_forall in Hc; [exact Hc|]. by apply chosen_timed.
Qed.

Lemma strictly_before_not_after a b :
  timed a.2 → timed b.2 →
  strictly_before a b → not_after tuple_lt selected_key a b.
Proof.
  intros (Va & _) (Vb & _). unfold strictly_before, not_after, tuple_lt.
  intros [Hlt|[Heq Hlt]].
  - destruct (Nat.eqb_spec (selected_key b).1 (selected_key a).1) as [E|E].
    + rewrite E in Hlt. by apply Nat.lt_irrefl in Hlt.
    + cbn [negb]. apply Nat.ltb_ge. by apply Nat.lt_le_incl.
  - rewrite Heq, Nat.eqb_refl. cbn [negb].
    change (selected_key a).2 with (start a.2).
    change (selected_key b).2 with (start b.2).
    rewrite eqb_scaled, ltb_scaled by done.
    destruct (Z.eqb_spec (scaled (start b.2)) (scaled (start a.2))); [done|].
    cbn [negb]. apply Z.ltb_ge. lia.
Qed.

(** The selection is in order before the final sort, which therefore
    leaves it as it is. *)
Lemma by_day_sort_id cs :
  Forall timed cs → sort_by tuple_lt selected_key (by_day cs) = by_day cs.
Proof.
  intros H. apply sort_by_sorted_id, StronglySorted_Sorted.
  eapply (StronglySorted_weaken (fun x => timed x.2));
    [|by apply by_day_timed|by apply by_day_sorted].
  intros a b. apply strictly_before_not_after.
Qed.

Lemma selected_by_day app :
  ref_ok app → Forall timed (self_classes app) →
  (selected app).2 = by_day (self_classes app).
Proof.
  intros Href H. rewrite selected_spec by done. by apply by_day_sort_id.
Qed.

(** The part of the selection that belongs to one weekday. *)
Lemma chosen_for_bind (f : string → list ClassEntry) ds day :
  NoDup ds → day ∈ ds →
  chosen_for day (ds ≫= fun d => pair d <$> f d) = f day.
Proof.
  unfold chosen_for.
  assert (Hother : ∀ d l, d ≠ day →
            filter (fun x : string * ClassEntry => x.1 = day) (pair d <$> l) = []).
  { intros d l Hd. induction l as [|c l IH]; [done|].
    rewrite fmap_cons, filter_cons_False; done. }
  assert (Hsame : ∀ l : list ClassEntry,
            filter (fun x : string * ClassEntry => x.1 = day) (pair day <$> l)
            = pair day <$> l).
  { induction l as [|c l IH]; [done|].
    rewrite fmap_cons, filter_cons_True by done. by rewrite IH. }
  assert (Hnone : ∀ ds : list string, day ∉ ds →
            filter (fun x : string * ClassEntry => x.1 = day)
              (ds ≫= fun d => pair d <$> f d) = []).
  { induction ds0 as [|d ds0 IH]; intros Hn; [done|].
    apply not_elem_of_cons in Hn as [Hne Hn].
    rewrite bind_cons, filter_app, Hother, IH by done. done. }
  induction 1 as [|d ds Hd Hnd IH]; intros Hin; [by apply elem_of_nil in Hin|].
  rewrite bind_cons, filter_app.
  destruct (decide (d = day)) as [->|Hne].
  - rewrite Hsame, Hnone, app_nil_r by done.
    rewrite <- list_fmap_compose. apply list_fmap_id.
  - apply elem_of_cons in Hin as [->|Hin]; [done|].
    rewrite Hother by done. by apply IH.
Qed.

Lemma DAYS_NoDup : NoDup DAYS.
Proof. apply (bool_decide_unpack _). by vm_compute. Qed.

Lemma chosen_for_by_day day cs :
  day ∈ DAYS → chosen_for day (by_day cs) = chosen day cs.
Proof.
  intros H. unfold by_day.
  by rewrite (chosen_for_bind (fun d => chosen d cs)) by (done || apply DAYS_NoDup).
Qed.

(** ** [add_class] *)

Lemma fill_listbox_event cs box : ¬ rejected (fill_listbox cs box).2.
Proof.
  revert box. induction cs as [|c cs IH]; intros box; simpl; [tauto|].
  destruct (format_time (start c)), (format_time (end_ c)); simpl; auto.
Qed.

Lemma update_class_list_event app : ¬ rejected (update_class_list app).2.
Proof.
  unfold update_class_list.
  pose proof (fill_listbox_event (self_classes app) []) as H.
  by destruct (fill_listbox (self_classes app) []).
Qed.

Lemma update_class_list_heap app :
  heap (update_class_list app).1 = heap app
  ∧ classes (update_class_list app).1 = classes app.
Proof.
  unfold update_class_list.
  by destruct (fill_listbox (self_classes app) []).
Qed.

Lemma update_class_list_classes app :
  self_classes (update_class_list app).1 = self_classes app.
Proof.
  unfold self_classes. by destruct (update_class_list_heap app) as [-> ->].
Qed.

Lemma add_class_inv name_entry start_entry end_entry day_vars app :
  add_class_cases name_entry start_entry end_entry day_vars app
    (add_class name_entry start_entry end_entry day_vars app).
Proof.
  unfold add_class.
  case_bool_decide as Hn; [by constructor|].
  destruct (parse_time (strip start_entry)) as [start0|] eqn:Hs;
    [|constructor; auto].
  destruct (parse_time (strip end_entry)) as [end0|] eqn:He;
    [|constructor; auto].
  destruct (geb start0 end0) eqn:Hg; [by econstructor|].
  destruct (checked_days 0 day_vars) as [days0|] eqn:Hd;
    [|by econstructor].
  case_bool_decide as Hd0; [subst; by econstructor|].
  destruct (find_conflict days0 start0 end0 (self_classes app))
    as [[existing_name shared_days]|] eqn:Hc; by econstructor.
Qed.

Lemma checked_days_DAYS i day_vars days0 :
  checked_days i day_vars = Some days0 → days0 ⊆ DAYS.
Proof.
  revert i days0. induction day_vars as [|v vars IH]; intros i days0; simpl.
  - intros [= <-]. apply list_subseteq_nil.
  - destruct (v =? 1); [|by apply IH].
    destruct (DAYS !! i) as [d|] eqn:Hd; [|done]. simpl.
    destruct (checked_days (S i) vars) as [ds|] eqn:Hds; [|done]. simpl.
    intros [= <-]. intros x [->|Hx]%elem_of_cons.
    + by eapply list_elem_of_lookup_2.
    + by eapply IH.
Qed.

(** The test of the conflict loop, as a proposition. *)
Lemma shared_nonempty days0 E :
  shared days0 (days E) ≠ ∅ ↔ shares_day days0 E.
Proof.
  unfold shared, shares_day. split.
  - intros H. apply set_choose_L in H as [d Hd]. exists d. set_solver.
  - intros (d & ? & ?). set_solver.
Qed.

Lemma elem_of_shared d days0 E :
  d ∈ shared days0 (days E) ↔ d ∈ days0 ∧ d ∈ days E.
Proof. unfold shared. set_solver. Qed.

Lemma times_overlap_half_open start0 end0 E :
  finite_valid start0 = true → finite_valid end0 = true → timed E →
  times_overlap start0 end0 (start E) (end_ E) = true
  ↔ half_open_overlap start0 end0 E.
Proof.
  intros Vs Ve (? & ? & _). unfold times_overlap, half_open_overlap.
  rewrite !leb_scaled, !ltb_scaled by done.
  rewrite negb_true_iff, orb_false_iff, !Z.leb_gt, !Z.ltb_lt. tauto.
Qed.

Lemma conflict_test days0 start0 end0 E
    `{!Decision (shared days0 (days E) ≠ ∅)} :
  finite_valid start0 = true → finite_valid end0 = true → timed E →
  bool_decide (shared days0 (days E) ≠ ∅)
  && times_overlap start0 end0 (start E) (end_ E) = true
  ↔ conflicts days0 start0 end0 E.
Proof.
  intros. unfold conflicts.
  rewrite andb_true_iff, bool_decide_eq_true, shared_nonempty.
  by rewrite times_overlap_half_open.
Qed.

Lemma find_conflict_Some days0 start0 end0 cs existing_name shared_days :
  finite_valid start0 = true → finite_valid end0 = true → Forall timed cs →
  find_conflict days0 start0 end0 cs = Some (existing_name, shared_days) →
  ∃ l1 E l2,
    cs = l1 ++ E :: l2
    ∧ Forall (fun E' => ¬ conflicts days0 start0 end0 E') l1
    ∧ conflicts days0 start0 end0 E
    ∧ existing_name = name E
    ∧ shared_days = shared days0 (days E).
Proof.
  intros Vs Ve Hcs. induction Hcs as [|c cs Hc Hcs IH]; cbn [find_conflict]; [done|].
  destruct (bool_decide _ && _) eqn:Ht.
  - intros [= <- <-]. apply conflict_test in Ht; [|done..].
    by exists [], c, cs.
  - intros (l1 & E & l2 & -> & Hl1 & HE & Hn & Hsd)%IH.
    exists (c :: l1), E, l2. split_and!; try done.
    constructor; [|done]. rewrite <- conflict_test by done. by rewrite Ht.
Qed.

Lemma find_conflict_None days0 start0 end0 cs :
  finite_valid start0 = true → finite_valid end0 = true → Forall timed cs →
  find_conflict days0 start0 end0 cs = None
  ↔ Forall (fun E => ¬ conflicts days0 start0 end0 E) cs.
Proof.
  intros Vs Ve Hcs. induction Hcs as [|c cs Hc Hcs IH]; cbn [find_conflict]; [done|].
  rewrite Forall_cons, <- conflict_test by done.
  destruct (bool_decide _ && _) eqn:Ht.
  - split; [done|]. by intros [[] _].
  - rewrite IH. split; [|tauto]. intros ?; split; [|done]. by rewrite Ht.
Qed.

(** ** Invariants *)

Lemma parse_time_valid s x : parse_time s = Some x → finite_valid x = true.
Proof. intros H. by eapply is_clock_valid, is_time_clock, parse_time_is_time. Qed.

Lemma geb_false_ltb x y :
  finite_valid x = true → finite_valid y = true →
  geb x y = false ↔ ltb x y = true.
Proof.
  intros. rewrite geb_scaled, ltb_scaled by done.
  by rewrite Z.leb_gt, Z.ltb_lt.
Qed.

Lemma self_classes_assign app l :
  ref_ok app →
  deref (assign (heap app) (classes app) l) (classes app) = l.
Proof.
  intros H. unfold deref, assign. by rewrite list_lookup_total_insert_eq.
Qed.

Lemma Inv_init : Inv init.
Proof. split; [unfold ref_ok; simpl; lia|constructor]. Qed.

Lemma Inv_update_class_list app : Inv app → Inv (update_class_list app).1.
Proof.
  intros [Href H]. split.
  - unfold ref_ok. by destruct (update_class_list_heap app) as [-> ->].
  - by rewrite update_class_list_classes.
Qed.

Lemma Inv_add_class name_entry start_entry end_entry day_vars app :
  Inv app → Inv (add_class name_entry start_entry end_entry day_vars app).1.
Proof.
  intros [Href H].
  destruct (add_class_inv name_entry start_entry end_entry day_vars app)
    as [| | | | | |start0 end0 days0 Hn Hs He Hg Hd Hd0 Hc]; try done.
  apply Inv_update_class_list. split.
  - unfold ref_ok. simpl. unfold assign. by rewrite length_insert.
  - unfold self_classes at 1. simpl. rewrite self_classes_assign by done.
    apply Forall_app. split; [done|]. constructor; [|constructor].
    pose proof (parse_time_valid _ _ Hs). pose proof (parse_time_valid _ _ He).
    assert (is_time start0) by by eapply parse_time_is_time.
    assert (is_time end0) by by eapply parse_time_is_time.
    constructor; simpl; try done.
    + by apply is_clock_range, is_time_clock.
    + by apply is_clock_range, is_time_clock.
    + by apply geb_false_ltb.
    + by eapply checked_days_DAYS.
Qed.

Lemma select_classes_heap app :
  ref_ok app →
  heap (select_classes app).1
  = heap app ++ ((fun day => day_sorted day (self_classes app)) <$> DAYS)
  ∧ classes (select_classes app).1 = classes app.
Proof.
  intros Href. unfold select_classes.
  rewrite selected_spec by done.
  by destruct (if bool_decide _ then _ else _).
Qed.

Lemma select_classes_classes app :
  ref_ok app → self_classes (select_classes app).1 = self_classes app.
Proof.
  intros Href. unfold self_classes.
  destruct (select_classes_heap app Href) as [-> ->].
  by apply deref_app_l.
Qed.

Lemma Inv_select_classes app : Inv app → Inv (select_classes app).1.
Proof.
  intros [Href H]. split.
  - unfold ref_ok. destruct (select_classes_heap app Href) as [-> ->].
    rewrite length_app. unfold ref_ok in Href. lia.
  - by rewrite select_classes_classes.
Qed.

Lemma Inv_step o app : Inv app → Inv (step o app).
Proof.
  destruct o; cbn [step].
  - apply Inv_add_class.
  - apply Inv_select_classes.
  - apply Inv_update_class_list.
Qed.

(** Every state the operations can reach from the initial object
    satisfies the invariant. *)
Lemma Inv_run ops : Inv (run ops).
Proof.
  unfold run. induction ops as [|o ops IH] using rev_ind.
  - apply Inv_init.
  - rewrite foldl_app. cbn [foldl]. by apply Inv_step.
Qed.

(** Two special cases of the conflict test: a stored class that ends when
    the candidate starts does not conflict with it, and neither does a
    stored class that has no day in common with it, whatever the times. *)
Lemma touching_no_conflict days0 start0 end0 E :
  finite_valid start0 = true → end_ E = start0 →
  ¬ conflicts days0 start0 end0 E.
Proof.
  intros Vs <- (_ & Hlt & _). rewrite ltb_scaled in Hlt by done.
  apply Z.ltb_lt in Hlt. lia.
Qed.

Lemma other_days_no_conflict days0 start0 end0 E :
  (∀ d, d ∈ days0 → d ∉ days E) → ¬ conflicts days0 start0 end0 E.
Proof. intros Hd ((d & Hd0 & HdE) & _). by apply (Hd d). Qed.


(** ** The per-day selection *)

Lemma filter_ext_Forall {A} (P Q : A → Prop)
    `{!∀ x, Decision (P x), !∀ x, Decision (Q x)} l :
  Forall (fun x => P x ↔ Q x) l → filter P l = filter Q l.
Proof.
  induction 1 as [|x l Hx Hl IH]; [done|].
  rewrite !filter_cons, IH.
  destruct (decide (P x)), (decide (Q x)); tauto.
Qed.

Lemma tied_eqb (x0 c : ClassEntry) :
  timed x0 → timed c →
  tied ltb end_ x0 c ↔ eqb (end_ c) (end_ x0) = true.
Proof.
  intros (_ & ? & _) (_ & ? & _). unfold tied, not_after.
  rewrite !ltb_scaled, eqb_scaled by done.
  rewrite !Z.ltb_ge, Z.eqb_eq. lia.
Qed.

Lemma day_sorted_stable day cs :
  Forall timed cs →
  stable_sorted_by_end (on_day day cs) (day_sorted day cs).
Proof.
  intros H. pose proof (on_day_timed day cs H) as Hon.
  pose proof (day_sorted_timed day cs H) as Hsorted.
  split_and!.
  - apply day_sorted_perm.
  - eapply (StronglySorted_weaken timed);
      [|exact Hsorted|by apply day_sorted_ends].
    simpl. intros a b (_ & ? & _) (_ & ? & _) ?.
    rewrite leb_scaled by done. by apply Z.leb_le.
  - intros x0 Hx0.
    assert (T0 : timed x0) by by eapply Forall_forall in Hon.
    rewrite <- (filter_ext_Forall (tied ltb end_ x0) _ (day_sorted day cs)).
    + rewrite <- (filter_ext_Forall (tied ltb end_ x0) _ (on_day day cs)).
      * apply (sort_by_stable ltb end_ timed);
          first [done | apply timed_not_after_trans | apply timed_lt_asym].
      * eapply Forall_impl; [exact Hon|]. intros c Tc. by apply tied_eqb.
    + eapply Forall_impl; [exact Hsorted|]. intros c Tc. by apply tied_eqb.
Qed.

Lemma sentinel_before cs :
  Forall timed cs →
  Forall (fun c => scaled (of_Z (-1)) <= scaled (start c)) cs.
Proof.
  intros H. eapply Forall_impl; [exact H|].
  intros c (_ & _ & ?). pose proof sentinel_neg. lia.
Qed.

Lemma chosen_for_selected app day :
  Inv app → day ∈ DAYS →
  chosen_for day (selected app).2 = chosen day (self_classes app).
Proof.
  intros [Href Hwf] Hday.
  rewrite selected_by_day by (done || by apply Forall_wf_timed).
  by apply chosen_for_by_day.
Qed.

(** * The claims *)

(** Well-formedness of the example states. *)
Lemma wf_entry_parsed n s e x y ds :
  n ≠ EmptyString → parse_time s = Some x → parse_time e = Some y →
  ltb x y = true → ds ≠ [] → ds ⊆ DAYS →
  wf_entry {| name := n; start := x; end_ := y; days := ds |}.
Proof.
  intros Hn Hs He Hlt Hds Hsub.
  assert (is_time x) by by eapply parse_time_is_time.
  assert (is_time y) by by eapply parse_time_is_time.
  constructor; cbn [name start end_ days]; try done.
  - by apply is_clock_range, is_time_clock.
  - by apply is_clock_range, is_time_clock.
Defined.

Lemma Mon_in_DAYS : ["Mon"%string] ⊆ DAYS.
Proof. apply (bool_decide_unpack _). vm_compute. reflexivity. Defined.

Lemma class_wf c :
  c = class_1 ∨ c = class_2 ∨ c = class_3 → wf_entry c.
Proof.
  intros [-> | [-> | ->]].
  - apply (wf_entry_parsed _ "09:00" "10:00");
      [discriminate|vm_compute; reflexivity..|discriminate|apply Mon_in_DAYS].
  - apply (wf_entry_parsed _ "09:15" "10:30");
      [discriminate|vm_compute; reflexivity..|discriminate|apply Mon_in_DAYS].
  - apply (wf_entry_parsed _ "10:00" "11:00");
      [discriminate|vm_compute; reflexivity..|discriminate|apply Mon_in_DAYS].
Defined.

Lemma three_on_Monday_Inv : Inv three_on_Monday.
Proof.
  split; [unfold ref_ok; simpl; lia|].
  change (Forall wf_entry [class_1; class_2; class_3]).
  repeat (apply Forall_cons_2; [apply class_wf; auto|]).
  apply Forall_nil_2.
Defined.

(** C4: [add_class] is atomic. Whenever it gives up with a message box,
    for a format error, a validation error or a conflict, the object it
    leaves is the object it found, and so is the list of stored classes,
    with the same classes in the same order. *)
Theorem add_class_atomic name_entry start_entry end_entry day_vars app :
  rejected (add_class name_entry start_entry end_entry day_vars app).2 →
  (add_class name_entry start_entry end_entry day_vars app).1 = app
  ∧ self_classes (add_class name_entry start_entry end_entry day_vars app).1
    = self_classes app.
Proof.
  intros Hrej.
  destruct (add_class_inv name_entry start_entry end_entry day_vars app);
    try done.
  by apply update_class_list_event in Hrej.
Qed.

Lemma add_class_atomic_witness :
  rejected (add_class "Physics" "09:30" "10:30" Mon_only with_math).2
  ∧ (add_class "Physics" "09:30" "10:30" Mon_only with_math).1 = with_math.
Proof.
  assert (H : rejected
            (add_class "Physics" "09:30" "10:30" Mon_only with_math).2)
    by (vm_compute; exact I).
  split; [exact H|].
  exact (proj1 (add_class_atomic "Physics" "09:30" "10:30" Mon_only with_math H)).
Defined.

(** C9: the data-model invariant is preserved by every operation. If
    every stored class has a non-empty name, start and end times that
    [parse_time] returns for some string and that lie in [0, 24), a start
    before its end, and a non-empty set of days drawn from [DAYS], then the
    same holds after [add_class] on any input, after [select_classes] and
    after [update_class_list]. *)
Theorem invariant_preserved o app : Inv app → Inv (step o app).
Proof. apply Inv_step. Qed.

Lemma invariant_preserved_witness :
  Inv three_on_Monday
  ∧ Inv (step (Add_class "Art" "12:00" "13:00" Mon_only) three_on_Monday).
Proof.
  split; [exact three_on_Monday_Inv|].
  exact (invariant_preserved (Add_class "Art" "12:00" "13:00" Mon_only)
           three_on_Monday three_on_Monday_Inv).
Defined.

(** C10: [select_classes] does not change the stored classes. Each
    [day_classes] it sorts is a list object of its own, added to the heap;
    the list object behind [self.classes], and every other list object
    that existed before the call, keeps its elements and their order. *)
Theorem select_classes_frame app :
  ref_ok app →
  classes (select_classes app).1 = classes app
  ∧ self_classes (select_classes app).1 = self_classes app
  ∧ heap (select_classes app).1
    = heap app ++ ((fun day => day_sorted day (self_classes app)) <$> DAYS)
  ∧ ∀ r, (r < length (heap app))%nat →
         deref (heap (select_classes app).1) r = deref (heap app) r.
Proof.
  intros Href. pose proof (select_classes_heap app Href) as [Hh Hc].
  split_and!; [done|by apply select_classes_classes|done|].
  intros r Hr. rewrite Hh. by apply deref_app_l.
Qed.

Lemma select_classes_frame_witness :
  ref_ok three_on_Monday
  ∧ self_classes (select_classes three_on_Monday).1 = [class_1; class_2; class_3].
Proof.
  assert (H : ref_ok three_on_Monday) by (unfold ref_ok; simpl; lia).
  split; [exact H|].
  exact (proj1 (proj2 (select_classes_frame three_on_Monday H))).
Defined.


Lemma with_math_Inv : Inv with_math.
Proof. apply Inv_add_class, Inv_init. Defined.

(** C2: a candidate that passes the checks of its name, its times, their
    order and its days is refused with the conflict warning if and only if
    some stored class shares a day with it and overlaps it as a half-open
    interval, each starting strictly before the other ends. The warning
    names the first such class in insertion order and carries exactly the
    days the two share; without such a class the candidate is appended. *)
Theorem add_class_conflict name_entry start_entry end_entry day_vars app
    start0 end0 days0 :
  Inv app →
  strip name_entry ≠ EmptyString →
  parse_time (strip start_entry) = Some start0 →
  parse_time (strip end_entry) = Some end0 →
  geb start0 end0 = false →
  checked_days 0 day_vars = Some days0 → days0 ≠ [] →
  let result := add_class name_entry start_entry end_entry day_vars app in
  ((∃ existing_name shared_days,
       result.2 = Showwarning "Time Conflict" existing_name shared_days)
   ↔ Exists (conflicts days0 start0 end0) (self_classes app))
  ∧ (∀ existing_name shared_days,
       result.2 = Showwarning "Time Conflict" existing_name shared_days →
       ∃ l1 E l2,
         self_classes app = l1 ++ E :: l2
         ∧ Forall (fun E' => ¬ conflicts days0 start0 end0 E') l1
         ∧ conflicts days0 start0 end0 E
         ∧ existing_name = name E
         ∧ ∀ d, d ∈ shared_days ↔ d ∈ days0 ∧ d ∈ days E)
  ∧ (¬ Exists (conflicts days0 start0 end0) (self_classes app) →
       self_classes result.1
       = self_classes app
         ++ [{| name := strip name_entry; start := start0; end_ := end0;
                days := days0 |}]).
Proof.
  intros [Href Hwf] Hn Hs He Hg Hd Hd0 result.
  pose proof (parse_time_valid _ _ Hs) as Vs.
  pose proof (parse_time_valid _ _ He) as Ve.
  apply Forall_wf_timed in Hwf.
  subst result.
  destruct (add_class_inv name_entry start_entry end_entry day_vars app)
    as [ | ? [?|?] | | | |s' e' d' nm sd _ Hs' He' _ Hd' _ Hc
       |s' e' d' _ Hs' He' _ Hd' _ Hc]; try congruence.
  - assert (s' = start0 ∧ e' = end0 ∧ d' = days0) as (-> & -> & ->)
      by (split_and!; congruence).
    apply find_conflict_Some in Hc
      as (l1 & E & l2 & Hcs & Hl1 & HE & -> & ->); [|done..].
    split_and!.
    + split; [|by eauto]. intros _. rewrite Hcs.
      apply Exists_app. right. by left.
    + intros ? ? [= <- <-]. exists l1, E, l2. split_and!; try done.
      intros d. apply elem_of_shared.
    + intros Hno. exfalso. apply Hno. rewrite Hcs.
      apply Exists_app. right. by left.
  - assert (s' = start0 ∧ e' = end0 ∧ d' = days0) as (-> & -> & ->)
      by (split_and!; congruence).
    apply find_conflict_None in Hc; [|done..].
    match goal with |- context [update_class_list ?a] => set (app1 := a) end.
    pose proof (update_class_list_event app1) as Hev.
    split_and!.
    + split.
      * intros (nm & sd & Heq). by rewrite Heq in Hev.
      * intros (x & Hx & HP)%Exists_exists.
        by eapply Forall_forall in Hc.
    + intros nm sd Heq. by rewrite Heq in Hev.
    + intros _. rewrite update_class_list_classes.
      subst app1. unfold self_classes at 1. simpl.
      by apply self_classes_assign.
Qed.

Lemma add_class_conflict_witness :
  (∃ existing_name shared_days,
     (add_class "Physics" "09:30" "10:30" Mon_only with_math).2
     = Showwarning "Time Conflict" existing_name shared_days)
  ∧ Exists (conflicts ["Mon"%string] (time_of 9 30) (time_of 10 30))
      (self_classes with_math).
Proof.
  assert (Hn : strip "Physics" ≠ EmptyString) by (vm_compute; discriminate).
  assert (Hs : parse_time (strip "09:30") = Some (time_of 9 30))
    by (vm_compute; reflexivity).
  assert (He : parse_time (strip "10:30") = Some (time_of 10 30))
    by (vm_compute; reflexivity).
  assert (Hg : geb (time_of 9 30) (time_of 10 30) = false)
    by (vm_compute; reflexivity).
  assert (Hd : checked_days 0 Mon_only = Some ["Mon"%string])
    by (vm_compute; reflexivity).
  assert (Hd0 : ["Mon"%string] ≠ []) by discriminate.
  assert (Hev : ∃ existing_name shared_days,
            (add_class "Physics" "09:30" "10:30" Mon_only with_math).2
            = Showwarning "Time Conflict" existing_name shared_days).
  { eexists _, _. vm_compute. reflexivity. }
  split; [exact Hev|].
  exact (proj1 (proj1 (add_class_conflict "Physics" "09:30" "10:30" Mon_only
                         with_math (time_of 9 30) (time_of 10 30)
                         ["Mon"%string] with_math_Inv Hn Hs He Hg Hd Hd0))
           Hev).
Defined.


(** C1: for every weekday, the classes [select_classes] chooses for it
    are stored classes of that day, no two of them overlap as half-open
    intervals, and no choice of non-overlapping stored classes of that day
    has more members. *)
Theorem select_classes_maximum app day :
  Inv app → day ∈ DAYS →
  let stored := on_day day (self_classes app) in
  let picked := chosen_for day (selected app).2 in
  picked ⊆+ stored
  ∧ non_overlapping picked
  ∧ ∀ S, S ⊆ stored → non_overlapping S → (length S <= length picked)%nat.
Proof.
  intros HInv Hday stored picked. subst stored picked.
  rewrite chosen_for_selected by done.
  destruct HInv as [_ Hwf]. apply Forall_wf_timed in Hwf.
  pose proof (day_sorted_timed day _ Hwf) as Hsorted.
  split_and!.
  - rewrite <- day_sorted_perm. apply sublist_submseteq, accepted_sublist.
  - by apply accepted_disjoint.
  - intros S HS HD. apply accepted_max; try done.
    + by apply day_sorted_ends.
    + intros x Hx. rewrite day_sorted_perm. by apply HS.
    + apply sentinel_before. eapply Forall_subseteq; [exact HS|].
      by apply on_day_timed.
Qed.

Lemma select_classes_maximum_witness :
  chosen_for "Mon" (selected three_on_Monday).2 = [class_1; class_3]
  ∧ ∀ S, S ⊆ [class_1; class_2; class_3] → non_overlapping S →
         (length S <= 2)%nat.
Proof.
  assert (Hday : "Mon"%string ∈ DAYS) by (apply (bool_decide_unpack _); reflexivity).
  split; [vm_compute; reflexivity|].
  pose proof (proj2 (proj2
    (select_classes_maximum three_on_Monday "Mon" three_on_Monday_Inv Hday)))
    as H.
  replace (chosen_for "Mon" (selected three_on_Monday).2)
    with [class_1; class_3] in H by (vm_compute; reflexivity).
  exact H.
Defined.

(** C3: the selection lists the weekdays in the order of [DAYS], and for
    each weekday it is the result of this procedure: keep the stored
    classes whose days contain it, sort them by end time with ties in
    insertion order, and scan them with [last_end] starting at -1,
    accepting a class exactly when its start is not before [last_end] and
    then moving [last_end] to its end. For the three Monday classes
    09:00-10:00, 09:15-10:30 and 10:00-11:00 it is the first and the
    third. *)
Theorem select_classes_greedy :
  (∀ app, Inv app →
     (selected app).2
     = (DAYS ≫= fun day => pair day <$> chosen_for day (selected app).2)
     ∧ ∀ day, day ∈ DAYS →
         ∃ day_classes,
           stable_sorted_by_end (on_day day (self_classes app)) day_classes
           ∧ greedy (of_Z (-1)) day_classes
               (chosen_for day (selected app).2))
  ∧ (selected three_on_Monday).2 = [("Mon"%string, class_1); ("Mon"%string, class_3)].
Proof.
  split; [|vm_compute; reflexivity].
  intros app HInv. pose proof HInv as [Href Hwf].
  apply Forall_wf_timed in Hwf. split.
  - rewrite selected_by_day at 1 by done. unfold by_day.
    apply Forall_bind_ext, Forall_forall. intros day Hday.
    by rewrite chosen_for_selected.
  - intros day Hday. exists (day_sorted day (self_classes app)). split.
    + by apply day_sorted_stable.
    + rewrite chosen_for_selected by done. apply accepted_greedy.
Qed.

Lemma select_classes_greedy_witness :
  ∃ day_classes,
    stable_sorted_by_end (on_day "Mon" (self_classes three_on_Monday)) day_classes
    ∧ greedy (of_Z (-1)) day_classes
        (chosen_for "Mon" (selected three_on_Monday).2).
Proof.
  assert (Hday : "Mon"%string ∈ DAYS) by (apply (bool_decide_unpack _); reflexivity).
  exact (proj2 (proj1 select_classes_greedy three_on_Monday three_on_Monday_Inv)
           "Mon"%string Hday).
Defined.

Lemma index_elem_of l d : d ∈ l → ∃ i, index l d = Some i.
Proof.
  induction 1 as [d l|d y l Hd IH]; simpl.
  - rewrite bool_decide_eq_true_2 by done. eauto.
  - case_bool_decide; [eauto|]. destruct IH as [i ->]. simpl. eauto.
Qed.

Lemma by_day_days cs : Forall (fun x => x.1 ∈ DAYS) (by_day cs).
Proof.
  apply Forall_forall.
  by intros x (d & (c & -> & Hc)%list_elem_of_fmap & Hd)%list_elem_of_bind.
Qed.

Lemma strictly_before_key_le a b :
  a.1 ∈ DAYS → b.1 ∈ DAYS → timed a.2 → timed b.2 →
  strictly_before a b → key_le a b.
Proof.
  intros [i Hi]%index_elem_of [j Hj]%index_elem_of (Va & _) (Vb & _).
  unfold strictly_before, key_le, selected_key. rewrite Hi, Hj. simpl.
  intros [?|[? ?]]; [by left|right]. split; [done|].
  rewrite leb_scaled by done. apply Z.leb_le. lia.
Qed.

(** C8: the selection is in order of weekday, as [DAYS] lists them, and
    of start time within a weekday: of any two of its entries the earlier
    one has the earlier weekday, or the same weekday and a start that is
    not later. *)
Theorem selected_sorted app :
  Inv app → StronglySorted key_le (selected app).2.
Proof.
  intros [Href Hwf]. apply Forall_wf_timed in Hwf.
  rewrite selected_by_day by done.
  eapply (StronglySorted_weaken (fun x => x.1 ∈ DAYS ∧ timed x.2));
    [| |by apply by_day_sorted].
  - intros a b [? ?] [? ?]. by apply strictly_before_key_le.
  - apply Forall_and. split; [apply by_day_days|by apply by_day_timed].
Qed.

Lemma selected_sorted_witness :
  Inv three_on_Monday ∧ StronglySorted key_le (selected three_on_Monday).2.
Proof.
  split; [exact three_on_Monday_Inv|].
  exact (selected_sorted three_on_Monday three_on_Monday_Inv).
Defined.


(** ** Parsing and display *)

Lemma near_table_ok :
  forallb (fun k => near (k / 60) (k `mod` 60)) (seqZ 0 1440) = true.
Proof. vm_compute. reflexivity. Qed.

Lemma near_range h m : 0 <= h < 24 → 0 <= m < 60 → near h m = true.
Proof.
  intros Hh Hm. pose proof near_table_ok as H.
  rewrite forallb_forall in H.
  assert (Hq : (60 * h + m) / 60 = h)
    by (symmetry; apply (Z.div_unique _ _ _ m); lia).
  assert (Hr : (60 * h + m) `mod` 60 = m)
    by (symmetry; apply (Z.mod_unique _ _ h); lia).
  specialize (H (60 * h + m)). cbv beta in H. rewrite Hq, Hr in H.
  apply H, list_elem_of_In, elem_of_seqZ. lia.
Qed.

(** C5, at the failing input: ["13:30\n"] is not of the format [H:MM] or
    [HH:MM], and [parse_time] returns 13.5 for it instead of raising,
    because [$] also matches before a final newline. *)
Theorem parse_time_accepts_newline :
  hhmm ("13:30" +:+ nl) = None
  ∧ parse_time ("13:30" +:+ nl) = Some (time_of 13 30)
  ∧ (to_Q (time_of 13 30) == 27 # 2)%Q.
Proof. split_and!; vm_compute; reflexivity. Qed.

(** C6: for a string of the format with hour [h] and minute [m],
    [parse_time] returns the binary64 number [h + m / 60], the quotient
    and the sum each rounded to nearest; its exact value is within [2^-48]
    of the rational [h + m/60]. In particular ["13:30"] gives 13.5 and
    ["00:00"] gives 0.0, both exactly. *)
Theorem parse_time_value :
  (∀ s h m, hhmm s = Some (h, m) →
     parse_time s = Some (add (of_Z h) (div (of_Z m) (of_Z 60)))
     ∧ (Qabs (to_Q (add (of_Z h) (div (of_Z m) (of_Z 60)))
              - (inject_Z h + inject_Z m / 60)) <= 1 # 2 ^ 48)%Q)
  ∧ (∃ x, parse_time "13:30" = Some x ∧ (to_Q x == 27 # 2)%Q)
  ∧ parse_time "00:00" = Some (S754_zero false).
Proof.
  split_and!.
  - intros s h m Hs. split.
    + rewrite parse_time_spec, (hhmm_chomp s _ Hs), Hs. reflexivity.
    + apply hhmm_range in Hs as [Hh Hm].
      apply Qle_bool_iff. exact (near_range h m Hh Hm).
  - eexists. split; vm_compute; reflexivity.
  - vm_compute. reflexivity.
Qed.

Lemma parse_time_value_witness :
  hhmm "23:59" = Some (23, 59)
  ∧ parse_time "23:59" = Some (add (of_Z 23) (div (of_Z 59) (of_Z 60))).
Proof.
  assert (H : hhmm "23:59" = Some (23, 59)) by (vm_compute; reflexivity).
  split; [exact H|].
  exact (proj1 (proj1 parse_time_value "23:59"%string 23 59 H)).
Defined.

(** C7, at the failing input: ["01:01"] is accepted, and the display code
    turns the value it parses to into ["01:00"]; the product
    [(value - hour) * 60] falls just short of 1 and is truncated. A class
    entered as starting at 01:01 is listed as starting at 01:00. *)
Theorem format_time_truncates :
  parse_time "01:01" = Some (time_of 1 1)
  ∧ format_time (time_of 1 1) = Some "01:00"%string
  ∧ class_listbox (add_class "Lab" "01:01" "02:00" Mon_only init).1
    = ["Lab: 01:00 - 02:00 on Mon"%string].
Proof. split_and!; vm_compute; reflexivity. Qed.


(** * Further properties *)

(** ** Parsing *)

Lemma parse_table_ok : forallb parse_ok (seqZ 0 1440) = true.
Proof. vm_compute. reflexivity. Qed.

Lemma parse_ok_range k : 0 <= k < 1440 → parse_ok k = true.
Proof.
  intros Hk. pose proof parse_table_ok as H.
  rewrite forallb_forall in H. apply H, list_elem_of_In, elem_of_seqZ. lia.
Qed.

Lemma clock_valid k : 0 <= k < 1440 → finite_valid (clock k) = true.
Proof. intros Hk. apply is_clock_valid. by exists k. Qed.

Lemma clock_24_valid : finite_valid (clock 1440) = true.
Proof. vm_compute. reflexivity. Qed.

Lemma clock_step k :
  0 <= k < 1440 → scaled (clock k) < scaled (clock (k + 1)).
Proof.
  intros Hk. pose proof (parse_ok_range k Hk) as H.
  unfold parse_ok in H. apply andb_prop in H as [_ H].
  assert (finite_valid (clock (k + 1)) = true).
  { destruct (decide (k + 1 = 1440)) as [->|];
      [apply clock_24_valid|apply clock_valid; lia]. }
  rewrite ltb_scaled in H by (done || by apply clock_valid).
  by apply Z.ltb_lt.
Qed.

(** Later clock times are larger numbers. *)
Lemma clock_mono j k :
  0 <= j → j < k → k < 1440 → scaled (clock j) < scaled (clock k).
Proof.
  intros Hj Hjk Hk.
  assert (H : ∀ n : nat, j + 1 + Z.of_nat n < 1440 →
            scaled (clock j) < scaled (clock (j + 1 + Z.of_nat n))).
  { induction n as [|n IH]; intros Hn.
    - rewrite Z.add_0_r. apply clock_step. lia.
    - etrans; [apply IH; lia|].
      replace (j + 1 + Z.of_nat (S n)) with (j + 1 + Z.of_nat n + 1) by lia.
      apply clock_step. lia. }
  specialize (H (Z.to_nat (k - j - 1))).
  replace (j + 1 + Z.of_nat (Z.to_nat (k - j - 1))) with k in H by lia.
  apply H. lia.
Qed.

Lemma clock_compare j k :
  0 <= j < 1440 → 0 <= k < 1440 →
  (scaled (clock j) ?= scaled (clock k)) = (j ?= k).
Proof.
  intros Hj Hk. destruct (Z.compare_spec j k) as [->|Hlt|Hgt].
  - apply Z.compare_refl.
  - apply Z.compare_lt_iff, clock_mono; lia.
  - apply Z.compare_gt_iff, clock_mono; lia.
Qed.

Lemma parse_time_hhmm s h m :
  hhmm s = Some (h, m) → parse_time s = Some (clock (60 * h + m)).
Proof.
  intros Hs. rewrite parse_time_spec, (hhmm_chomp s _ Hs), Hs. simpl.
  apply hhmm_range in Hs as [Hh Hm]. by rewrite clock_time_of.
Qed.

(** X1: the numbers [parse_time] returns compare as the times of day they
    stand for: for two strings of the format, [<], [>=] and [==] on the
    results agree with the comparison of the minutes since midnight. *)
Theorem parse_time_order s1 s2 h1 m1 h2 m2 x1 x2 :
  hhmm s1 = Some (h1, m1) → hhmm s2 = Some (h2, m2) →
  parse_time s1 = Some x1 → parse_time s2 = Some x2 →
  ltb x1 x2 = (60 * h1 + m1 <? 60 * h2 + m2)
  ∧ geb x1 x2 = (60 * h2 + m2 <=? 60 * h1 + m1)
  ∧ eqb x1 x2 = (60 * h1 + m1 =? 60 * h2 + m2).
Proof.
  intros H1 H2 P1 P2.
  rewrite (parse_time_hhmm _ _ _ H1) in P1.
  rewrite (parse_time_hhmm _ _ _ H2) in P2.
  injection P1 as <-. injection P2 as <-.
  apply hhmm_range in H1 as [? ?], H2 as [? ?].
  set (j := 60 * h1 + m1). set (k := 60 * h2 + m2).
  assert (Hj : 0 <= j < 1440) by (subst j; lia).
  assert (Hk : 0 <= k < 1440) by (subst k; lia).
  pose proof (clock_valid j Hj). pose proof (clock_valid k Hk).
  rewrite ltb_scaled, geb_scaled, eqb_scaled by done.
  pose proof (clock_compare j k Hj Hk) as Hc.
  pose proof (clock_compare k j Hk Hj) as Hc'.
  rewrite Z.eqb_compare. unfold Z.ltb, Z.leb. rewrite Hc, Hc'.
  by rewrite <- Z.eqb_compare.
Qed.

Lemma parse_time_order_witness :
  ltb (time_of 9 59) (time_of 10 0) = true.
Proof.
  assert (H1 : hhmm "9:59" = Some (9, 59)) by (vm_compute; reflexivity).
  assert (H2 : hhmm "10:00" = Some (10, 0)) by (vm_compute; reflexivity).
  assert (P1 : parse_time "9:59" = Some (time_of 9 59))
    by (vm_compute; reflexivity).
  assert (P2 : parse_time "10:00" = Some (time_of 10 0))
    by (vm_compute; reflexivity).
  exact (proj1 (parse_time_order "9:59" "10:00" 9 59 10 0 _ _ H1 H2 P1 P2)).
Defined.

(** X2: whatever string [parse_time] accepts, the number it returns is finite
    and lies in [0, 24). *)
Theorem parse_time_range s x :
  parse_time s = Some x →
  finite_valid x = true
  ∧ leb (of_Z 0) x = true ∧ ltb x (of_Z 24) = true
  ∧ (0 <= to_Q x)%Q ∧ (to_Q x < 24)%Q.
Proof.
  intros Hs. apply parse_time_is_time, is_time_clock in Hs.
  pose proof (is_clock_valid x Hs) as V.
  pose proof (is_clock_range x Hs) as [H0 H24].
  split_and!; try done.
  - rewrite leb_scaled in H0 by done. apply Z.leb_le in H0.
    unfold to_Q, Qle. simpl. change (scaled (of_Z 0)) with 0 in H0. lia.
  - rewrite ltb_scaled in H24 by done. apply Z.ltb_lt in H24.
    unfold to_Q, Qlt. cbn [Qnum Qden].
    change (scaled (of_Z 24)) with (24 * Z.pos (2 ^ 1074)) in H24. lia.
Qed.

Lemma parse_time_range_witness :
  parse_time "23:59" = Some (time_of 23 59)
  ∧ ltb (time_of 23 59) (of_Z 24) = true.
Proof.
  assert (H : parse_time "23:59" = Some (time_of 23 59))
    by (vm_compute; reflexivity).
  split; [exact H|].
  exact (proj1 (proj2 (proj2 (parse_time_range "23:59" _ H)))).
Defined.


(** ** Stripped input *)







Lemma all_space_rev_app s acc :
  all_space (String.rev_app s acc) = all_space s && all_space acc.
Proof.
  revert acc. induction s as [|c s IH]; intros acc; simpl; [done|].
  rewrite IH. simpl. by destruct (is_space c), (all_space s).
Qed.

Lemma lstrip_empty s : lstrip s = EmptyString ↔ all_space s = true.
Proof.
  induction s as [|c s IH]; simpl; [done|].
  destruct (is_space c); simpl; [done|]. split; discriminate.
Qed.

Lemma all_space_lstrip s : all_space (lstrip s) = all_space s.
Proof.
  induction s as [|c s IH]; simpl; [done|].
  destruct (is_space c) eqn:E; simpl; [done|]. by rewrite E.
Qed.

Lemma rev_app_empty s acc :
  String.rev_app s acc = EmptyString ↔ s = EmptyString ∧ acc = EmptyString.
Proof.
  revert acc. induction s as [|c s IH]; intros acc; simpl.
  - split; [by intros ->|by intros [_ ->]].
  - rewrite IH. split; [by intros [_ [=]]|by intros [[=] _]].
Qed.

Lemma strip_empty s : strip s = EmptyString ↔ all_space s = true.
Proof.
  unfold strip, rstrip, String.rev.
  rewrite rev_app_empty, lstrip_empty, all_space_rev_app, all_space_lstrip.
  rewrite andb_true_r. split; [by intros [? _]|done].
Qed.

(** X4: [add_class] reports an empty class name exactly when the name entry
    holds nothing but whitespace, the empty text included; no other check
    runs before this one. *)
Theorem add_class_blank_name name_entry start_entry end_entry day_vars app :
  (add_class name_entry start_entry end_entry day_vars app).2
  = Showerror "Invalid Input" "Class name cannot be empty."
  ↔ all_space name_entry = true.
Proof.
  rewrite <- strip_empty.
  destruct (add_class_inv name_entry start_entry end_entry day_vars app)
    as [Hn|Hn|? ? Hn|? ? Hn|? ? Hn|? ? ? ? ? Hn|? ? ? Hn]; simpl;
    try (split; [discriminate|done]); [done|].
  split; [|done]. intros Hev.
  match type of Hev with (update_class_list ?a).2 = _ =>
    pose proof (update_class_list_event a) as Hno end.
  by rewrite Hev in Hno.
Qed.

Lemma add_class_blank_name_witness :
  (add_class "   " "09:00" "10:00" Mon_only init).2
  = Showerror "Invalid Input" "Class name cannot be empty.".
Proof.
  assert (H : all_space "   " = true) by (vm_compute; reflexivity).
  exact (proj2 (add_class_blank_name "   " "09:00" "10:00" Mon_only init) H).
Defined.


(** ** Display *)

Lemma display_table_ok : forallb display_ok (seqZ 0 1440) = true.
Proof. vm_compute. reflexivity. Qed.

Lemma minutes_split h m :
  0 <= h < 24 → 0 <= m < 60 →
  0 <= 60 * h + m < 1440 ∧ (60 * h + m) / 60 = h ∧ (60 * h + m) `mod` 60 = m.
Proof.
  intros Hh Hm. split_and!; [lia..| |].
  - symmetry. apply (Z.div_unique _ _ _ m); lia.
  - symmetry. apply (Z.mod_unique _ _ h); lia.
Qed.

Lemma hh_mm_format h m :
  0 <= h < 24 → 0 <= m < 60 → hhmm (hh_mm h m) = Some (h, m).
Proof.
  intros Hh Hm. destruct (minutes_split h m Hh Hm) as (Hk & Hq & Hr).
  pose proof (parse_ok_range _ Hk) as H. unfold parse_ok in H.
  apply andb_prop in H as [H _]. apply bool_decide_eq_true in H.
  by rewrite Hq, Hr in H.
Qed.

Lemma display_range h m :
  0 <= h < 24 → 0 <= m < 60 →
  ∃ s, format_time (time_of h m) = Some s
       ∧ (s = hh_mm h m ∨ (1 <= m ∧ s = hh_mm h (m - 1)))
       ∧ (m `mod` 15 = 0 → s = hh_mm h m).
Proof.
  intros Hh Hm. destruct (minutes_split h m Hh Hm) as (Hk & Hq & Hr).
  pose proof display_table_ok as H. rewrite forallb_forall in H.
  specialize (H (60 * h + m)). unfold display_ok in H. rewrite Hq, Hr in H.
  destruct (format_time (time_of h m)) as [s|];
    [|discriminate H; apply list_elem_of_In, elem_of_seqZ; lia].
  exists s. split; [done|].
  apply andb_prop in H as [H1 H2];
    [|apply list_elem_of_In, elem_of_seqZ; lia].
  split.
  - apply orb_prop in H1 as [H1|[H1 H1']%andb_prop].
    + left. by apply String.eqb_eq.
    + right. split; [by apply Z.leb_le|by apply String.eqb_eq].
  - intros H15. apply Z.eqb_eq in H15. rewrite H15 in H2.
    by apply String.eqb_eq.
Qed.

(** X5: for every time [h:m] of the day, the display code produces a text
    without raising: the zero-padded text of [h:m], or the text of the
    minute before in the same hour, and never anything else. It is the
    text of [h:m] itself whenever the minute is a multiple of 15. Parsing
    the text back gives the time shown. *)
Theorem format_time_within_a_minute h m :
  0 <= h < 24 → 0 <= m < 60 →
  ∃ s, format_time (add (of_Z h) (div (of_Z m) (of_Z 60))) = Some s
       ∧ ((s = hh_mm h m
           ∧ parse_time s = Some (add (of_Z h) (div (of_Z m) (of_Z 60))))
          ∨ (1 <= m ∧ s = hh_mm h (m - 1)
             ∧ parse_time s
               = Some (add (of_Z h) (div (of_Z (m - 1)) (of_Z 60)))))
       ∧ (m `mod` 15 = 0 → s = hh_mm h m).
Proof.
  intros Hh Hm. destruct (display_range h m Hh Hm) as (s & Hs & Hcase & H15).
  exists s. split_and!; [done| |done].
  destruct Hcase as [->|[H1 ->]]; [left|right]; split_and!; try done.
  - rewrite (parse_time_hhmm _ h m) by by apply hh_mm_format.
    by rewrite <- clock_time_of.
  - rewrite (parse_time_hhmm _ h (m - 1)) by (apply hh_mm_format; lia).
    rewrite <- (clock_time_of h (m - 1)) by lia. done.
Qed.

Lemma format_time_within_a_minute_witness :
  ∃ s, format_time (time_of 10 10) = Some s
       ∧ (s = "10:10"%string ∨ s = "10:09"%string).
Proof.
  assert (Hh : 0 <= 10 < 24) by lia.
  assert (Hm : 0 <= 10 < 60) by lia.
  destruct (format_time_within_a_minute 10 10 Hh Hm) as (s & Hs & Hcase & _).
  exists s. split; [exact Hs|].
  destruct Hcase as [[-> _]|(_ & -> & _)]; [left|right]; vm_compute; reflexivity.
Defined.

Lemma minutes_range k :
  0 <= k < 1440 → 0 <= k / 60 < 24 ∧ 0 <= k `mod` 60 < 60.
Proof.
  intros Hk. pose proof (Z.div_mod k 60 ltac:(lia)).
  pose proof (Z.mod_pos_bound k 60 ltac:(lia)). lia.
Qed.

Lemma format_time_clock x : is_clock x → is_Some (format_time x).
Proof.
  intros (k & Hk & ->). unfold clock.
  destruct (minutes_range k Hk) as [Hh Hm].
  by destruct (display_range _ _ Hh Hm) as (s & -> & _).
Qed.

Lemma listbox_row_wf c : wf_entry c → is_Some (listbox_row c).
Proof.
  intros Hc. unfold listbox_row.
  destruct (format_time_clock (start c)) as [s ->];
    [apply is_time_clock, Hc|].
  destruct (format_time_clock (end_ c)) as [e ->];
    [apply is_time_clock, Hc|].
  done.
Qed.

Lemma fill_listbox_rows cs box :
  Forall wf_entry cs →
  ∃ rows, fill_listbox cs box = (box ++ rows, Completed)
          ∧ Forall2 (fun c row => listbox_row c = Some row) cs rows.
Proof.
  intros Hcs. revert box.
  induction Hcs as [|c cs Hc Hcs IH]; intros box; cbn [fill_listbox].
  - exists []. by rewrite app_nil_r.
  - destruct (format_time_clock (start c)) as [s Hs];
      [apply is_time_clock, Hc|].
    destruct (format_time_clock (end_ c)) as [e He];
      [apply is_time_clock, Hc|].
    rewrite Hs, He.
    match goal with |- context [fill_listbox cs (box ++ [?r])] =>
      set (row := r) end.
    destruct (IH (box ++ [row])) as (rows & Hfill & Hrows).
    exists (row :: rows). rewrite Hfill. split.
    + by rewrite <- app_assoc.
    + constructor; [|done]. unfold listbox_row. by rewrite Hs, He.
Qed.

(** X6: on a well-formed state [update_class_list] runs to its end without
    an exception, and the list box then holds one row for each stored
    class, in insertion order, each built from the class of that position;
    the stored classes are not touched. *)
Theorem update_class_list_rows app :
  Inv app →
  (update_class_list app).2 = Completed
  ∧ Forall2 (fun c row => listbox_row c = Some row)
      (self_classes app) (class_listbox (update_class_list app).1)
  ∧ self_classes (update_class_list app).1 = self_classes app.
Proof.
  intros [_ Hwf]. split_and!; [..|apply update_class_list_classes].
  - unfold update_class_list.
    by destruct (fill_listbox_rows (self_classes app) [] Hwf) as (rows & -> & _).
  - unfold update_class_list.
    by destruct (fill_listbox_rows (self_classes app) [] Hwf) as (rows & -> & ?).
Qed.

Lemma update_class_list_rows_witness :
  (update_class_list three_on_Monday).2 = Completed
  ∧ length (class_listbox (update_class_list three_on_Monday).1) = 3%nat.
Proof.
  destruct (update_class_list_rows three_on_Monday three_on_Monday_Inv)
    as (Hev & Hrows & _).
  split; [exact Hev|].
  apply Forall2_length in Hrows. rewrite <- Hrows. reflexivity.
Defined.


(** ** Reachable states *)

Lemma FOP_cons_inv {A} (R : A → A → Prop) x l :
  ForallOrdPairs R (x :: l) ↔ Forall (R x) l ∧ ForallOrdPairs R l.
Proof.
  split; [by inversion 1|]. intros [? ?]. by constructor.
Qed.

Lemma FOP_snoc {A} (R : A → A → Prop) l x :
  ForallOrdPairs R (l ++ [x])
  ↔ ForallOrdPairs R l ∧ Forall (fun y => R y x) l.
Proof.
  induction l as [|y l IH]; simpl.
  - split; [intros _; split; constructor|intros _; repeat constructor].
  - rewrite !FOP_cons_inv, IH, Forall_app, Forall_singleton.
    rewrite (Forall_cons (fun z => R z x)). tauto.
Qed.

Lemma FOP_weaken {A} (P : A → Prop) (R R' : A → A → Prop) l :
  (∀ x y, P x → P y → R x y → R' x y) →
  Forall P l → ForallOrdPairs R l → ForallOrdPairs R' l.
Proof.
  intros HR HP Hl. induction Hl as [|x l Hx Hl IH]; [constructor|].
  apply Forall_cons in HP as [Px HP]. constructor; [|by apply IH].
  rewrite Forall_forall in Hx, HP. apply Forall_forall. intros y Hy.
  apply HR; auto.
Qed.

Lemma FOP_Permutation {A} (R : A → A → Prop) l l' :
  (∀ x y, R x y → R y x) →
  l ≡ₚ l' → ForallOrdPairs R l → ForallOrdPairs R l'.
Proof.
  intros Hsym. induction 1 as [|x l l' Hp IH|x y l|l1 l2 l3 _ IH1 _ IH2].
  - done.
  - rewrite !FOP_cons_inv. intros [Hx Hl]. split; [by rewrite <- Hp|auto].
  - rewrite !FOP_cons_inv, !Forall_cons. intros [[Hyx Hy] [Hx Hl]]. auto.
  - auto.
Qed.

Lemma overlap_sym a b : overlap a b = overlap b a.
Proof. unfold overlap, times_overlap. by rewrite orb_comm. Qed.

Lemma compatible_sym a b : compatible a b → compatible b a.
Proof.
  unfold compatible. intros H (d & ? & ?). rewrite overlap_sym.
  apply H. by exists d.
Qed.

(** A candidate that conflicts with no stored class is compatible with
    each of them. *)
Lemma no_conflict_compatible days0 start0 end0 n E :
  finite_valid start0 = true → finite_valid end0 = true → timed E →
  ¬ conflicts days0 start0 end0 E →
  compatible E {| name := n; start := start0; end_ := end0; days := days0 |}.
Proof.
  intros Vs Ve TE Hno (d & HdE & Hd0). simpl in Hd0.
  destruct (overlap E _) eqn:Hov; [|done]. exfalso. apply Hno.
  split; [by exists d|].
  rewrite overlap_sym in Hov. unfold overlap in Hov. simpl in Hov.
  by apply times_overlap_half_open in Hov.
Qed.

Lemma conflict_free_add_class name_entry start_entry end_entry day_vars app :
  Inv app → conflict_free (self_classes app) →
  conflict_free
    (self_classes (add_class name_entry start_entry end_entry day_vars app).1).
Proof.
  intros [Href Hwf] Hfree.
  destruct (add_class_inv name_entry start_entry end_entry day_vars app)
    as [| | | | | |start0 end0 days0 Hn Hs He Hg Hd Hd0 Hc]; try done.
  rewrite update_class_list_classes. unfold self_classes at 1. simpl.
  rewrite self_classes_assign by done.
  apply Forall_wf_timed in Hwf.
  pose proof (parse_time_valid _ _ Hs). pose proof (parse_time_valid _ _ He).
  apply find_conflict_None in Hc; [|done..].
  apply FOP_snoc. split; [done|].
  apply Forall_forall. intros E HE.
  apply no_conflict_compatible; try done.
  - by eapply Forall_forall in Hwf.
  - by eapply Forall_forall in Hc.
Qed.

Lemma conflict_free_step o app :
  Inv app → conflict_free (self_classes app) →
  conflict_free (self_classes (step o app)).
Proof.
  intros HInv Hfree. destruct o; cbn [step].
  - by apply conflict_free_add_class.
  - rewrite select_classes_classes; [done|apply HInv].
  - by rewrite update_class_list_classes.
Qed.

Lemma conflict_free_run ops : conflict_free (self_classes (run ops)).
Proof.
  unfold run. induction ops as [|o ops IH] using rev_ind.
  - constructor.
  - rewrite foldl_app. cbn [foldl].
    apply conflict_free_step; [apply Inv_run|done].
Qed.

(** X7: in every state that the operations reach from the initial object, no
    two stored classes that share a day overlap in time: [add_class] never
    lets a conflict in, and nothing else writes the list. *)
Theorem reachable_conflict_free ops i j a b d :
  (i < j)%nat →
  self_classes (run ops) !! i = Some a →
  self_classes (run ops) !! j = Some b →
  d ∈ days a → d ∈ days b →
  times_overlap (start a) (end_ a) (start b) (end_ b) = false.
Proof.
  intros Hij Ha Hb Hda Hdb.
  pose proof (conflict_free_run ops) as Hfree.
  revert i j Hij Ha Hb.
  induction Hfree as [|x l Hx Hl IH]; intros i j Hij Ha Hb; [done|].
  destruct j as [|j]; [lia|]. destruct i as [|i]; simpl in Ha, Hb.
  - injection Ha as ->. apply list_elem_of_lookup_2 in Hb.
    eapply Forall_forall in Hx; [|exact Hb]. apply Hx. by exists d.
  - apply (IH i j); [lia|done..].
Qed.

Lemma reachable_conflict_free_witness :
  times_overlap (time_of 9 0) (time_of 10 0) (time_of 10 0) (time_of 11 0)
  = false.
Proof.
  set (ops := [Add_class "A" "09:00" "10:00" Mon_only;
               Add_class "B" "10:00" "11:00" Mon_only]).
  assert (Hij : (0 < 1)%nat) by lia.
  assert (Ha : self_classes (run ops) !! 0%nat
               = Some {| name := "A"; start := time_of 9 0;
                         end_ := time_of 10 0; days := ["Mon"%string] |})
    by (vm_compute; reflexivity).
  assert (Hb : self_classes (run ops) !! 1%nat
               = Some {| name := "B"; start := time_of 10 0;
                         end_ := time_of 11 0; days := ["Mon"%string] |})
    by (vm_compute; reflexivity).
  assert (Hd : "Mon"%string ∈ ["Mon"%string]) by (apply list_elem_of_here).
  exact (reachable_conflict_free ops 0 1 _ _ "Mon"%string Hij Ha Hb Hd Hd).
Defined.

(** When no two classes of a day overlap, the scan accepts all of them. *)
Lemma accepted_all last_end cs :
  finite_valid last_end = true → Forall timed cs →
  StronglySorted (fun a b => scaled (end_ a) <= scaled (end_ b)) cs →
  non_overlapping cs →
  Forall (fun c => scaled last_end <= scaled (start c)) cs →
  accepted last_end cs = cs.
Proof.
  intros Hl Hcs Hsorted. revert last_end Hl.
  induction Hsorted as [|c cs Hsorted IH Hc]; intros last_end Hl Hno Hlast;
    cbn [accepted]; [done|].
  apply Forall_cons in Hcs as [Tc Hcs].
  apply Forall_cons in Hlast as [Hlc Hlast].
  apply FOP_cons_inv in Hno as [Hnc Hno].
  pose proof Tc as (Vs & Ve & Hse).
  rewrite geb_scaled by done.
  destruct (Z.leb_spec (scaled last_end) (scaled (start c))); [|lia].
  f_equal. apply IH; try done.
  rewrite Forall_forall in Hcs, Hc, Hnc. apply Forall_forall. intros x Hx.
  specialize (Hcs x Hx). specialize (Hc x Hx). specialize (Hnc x Hx).
  destruct (Z.le_gt_cases (scaled (end_ c)) (scaled (start x))); [done|].
  exfalso. assert (overlap c x = true); [|congruence].
  apply overlap_scaled; [done..|lia].
Qed.

Lemma on_day_non_overlapping day cs :
  conflict_free cs → non_overlapping (on_day day cs).
Proof.
  intros Hfree. unfold on_day, non_overlapping.
  eapply (FOP_weaken (fun c => day ∈ days c));
    [| |by apply ForallOrdPairs_filter, Hfree].
  - intros a b Ha Hb Hab. apply Hab. by exists day.
  - apply Forall_forall. by intros c [? _]%list_elem_of_filter.
Qed.

Lemma chosen_all day cs :
  Forall timed cs → conflict_free cs → chosen day cs = day_sorted day cs.
Proof.
  intros Hcs Hfree. apply accepted_all.
  - done.
  - by apply day_sorted_timed.
  - by apply day_sorted_ends.
  - eapply (FOP_Permutation _ (on_day day cs)).
    + intros a b. by rewrite overlap_sym.
    + by rewrite day_sorted_perm.
    + by apply on_day_non_overlapping.
  - by apply sentinel_before, day_sorted_timed.
Qed.

(** X8: in every reachable state the selection leaves nothing out: it holds
    the pair of a day and a class exactly when the class is stored and
    meets on that day. *)
Theorem reachable_selects_all ops d c :
  (d, c) ∈ (selected (run ops)).2
  ↔ c ∈ self_classes (run ops) ∧ d ∈ days c.
Proof.
  pose proof (Inv_run ops) as [Href Hwf].
  pose proof (Forall_wf_timed _ Hwf) as Ht.
  rewrite selected_by_day by done. unfold by_day.
  rewrite list_elem_of_bind. split.
  - intros (d' & (c' & [= -> ->] & Hc)%list_elem_of_fmap & Hd).
    rewrite chosen_all in Hc by (done || apply conflict_free_run).
    rewrite day_sorted_perm in Hc.
    by apply list_elem_of_filter in Hc as [? ?].
  - intros [Hc Hd]. exists d. split.
    + apply list_elem_of_fmap. exists c. split; [done|].
      rewrite chosen_all by (done || apply conflict_free_run).
      rewrite day_sorted_perm. by apply list_elem_of_filter.
    + eapply Forall_forall in Hwf; [|exact Hc]. by apply (wf_days c Hwf).
Qed.

Lemma reachable_selects_all_witness :
  ("Wed"%string,
   {| name := "Math"; start := time_of 9 0; end_ := time_of 10 0;
      days := ["Mon"; "Wed"; "Fri"]%string |})
  ∈ (selected
       (run [Add_class "Math" "09:00" "10:00" [1; 0; 1; 0; 1; 0; 0]])).2.
Proof.
  apply (proj2 (reachable_selects_all
                  [Add_class "Math" "09:00" "10:00" [1; 0; 1; 0; 1; 0; 0]]
                  "Wed"%string _)).
  split.
  - replace (self_classes
               (run [Add_class "Math" "09:00" "10:00" [1; 0; 1; 0; 1; 0; 0]]))
      with [{| name := "Math"%string; start := time_of 9 0;
               end_ := time_of 10 0; days := ["Mon"; "Wed"; "Fri"]%string |}]
      by (vm_compute; reflexivity).
    apply list_elem_of_here.
  - cbn [days]. apply list_elem_of_further, list_elem_of_here.
Defined.


(** ** The check boxes *)

Lemma checked_days_sublist i day_vars days0 :
  checked_days i day_vars = Some days0 → days0 `sublist_of` drop i DAYS.
Proof.
  revert i days0. induction day_vars as [|v vars IH]; intros i days0;
    cbn [checked_days].
  - intros [= <-]. apply sublist_nil_l.
  - assert (Hdrop : drop (S i) DAYS `sublist_of` drop i DAYS).
    { replace (S i) with (i + 1)%nat by lia. rewrite <- drop_drop.
      apply sublist_drop. }
    destruct (v =? 1).
    + destruct (DAYS !! i) as [d|] eqn:Hd; [|done]. cbn.
      destruct (checked_days (S i) vars) as [ds|] eqn:Hds; [|done]. cbn.
      intros [= <-]. rewrite (drop_S _ _ _ Hd). apply sublist_skip. by apply IH.
    + intros H. etrans; [by apply IH|done].
Qed.

Lemma checked_days_elem i day_vars days0 d :
  checked_days i day_vars = Some days0 →
  d ∈ days0
  ↔ ∃ j, day_vars !! j = Some 1 ∧ DAYS !! (i + j)%nat = Some d.
Proof.
  revert i days0. induction day_vars as [|v vars IH]; intros i days0;
    cbn [checked_days].
  - intros [= <-]. split; [by intros ?%elem_of_nil|by intros (j & ? & _)].
  - destruct (Z.eqb_spec v 1) as [->|Hv].
    + destruct (DAYS !! i) as [d'|] eqn:Hd; [|done]. cbn.
      destruct (checked_days (S i) vars) as [ds|] eqn:Hds; [|done]. cbn.
      intros [= <-]. rewrite elem_of_cons, (IH _ _ Hds). split.
      * intros [->|(j & Hj & Hdj)].
        -- exists 0%nat. by rewrite Nat.add_0_r.
        -- exists (S j). by rewrite Nat.add_succ_r.
      * intros ([|j] & Hj & Hdj).
        -- left. rewrite Nat.add_0_r in Hdj. congruence.
        -- right. exists j. by rewrite Nat.add_succ_r in Hdj.
    + intros Hds. rewrite (IH _ _ Hds). split.
      * intros (j & Hj & Hdj). exists (S j). by rewrite Nat.add_succ_r.
      * intros ([|j] & Hj & Hdj); [simpl in Hj; congruence|].
        exists j. by rewrite Nat.add_succ_r in Hdj.
Qed.

Lemma checked_days_None i day_vars :
  checked_days i day_vars = None
  ↔ ∃ j, day_vars !! j = Some 1 ∧ (length DAYS <= i + j)%nat.
Proof.
  change (length DAYS) with 7%nat.
  assert (HL : ∀ n (d : string), DAYS !! n = Some d → (n < 7)%nat)
    by (intros n d H; by apply lookup_lt_Some in H).
  assert (HG : ∀ n, DAYS !! n = None → (7 <= n)%nat)
    by (intros n H; by apply lookup_ge_None in H).
  revert i. induction day_vars as [|v vars IH]; intros i; cbn [checked_days].
  - split; [done|by intros (j & ? & _)].
  - destruct (Z.eqb_spec v 1) as [->|Hv].
    + destruct (DAYS !! i) as [d|] eqn:Hd; cbn.
      * destruct (checked_days (S i) vars) as [ds|] eqn:Hds; cbn.
        -- split; [done|]. intros ([|j] & Hj & Hlen).
           ++ apply HL in Hd. lia.
           ++ assert (checked_days (S i) vars = None); [|congruence].
              apply IH. exists j. split; [done|lia].
        -- split; [|done]. intros _. apply IH in Hds as (j & Hj & Hlen).
           exists (S j). split; [done|lia].
      * split; [|done]. intros _. exists 0%nat. split; [done|].
        apply HG in Hd. lia.
    + rewrite IH. split.
      * intros (j & Hj & Hlen). exists (S j). split; [done|lia].
      * intros ([|j] & Hj & Hlen); [simpl in Hj; congruence|].
        exists j. split; [done|lia].
Qed.

(** X9: the days of a candidate are the elements of [DAYS] whose check box
    holds 1, in the order of [DAYS] and without repetition. The
    comprehension raises [IndexError] exactly when a box at position 7 or
    beyond holds 1, which the seven boxes of the form rule out. *)
Theorem checked_days_spec day_vars :
  (checked_days 0 day_vars = None
   ↔ ∃ j, day_vars !! j = Some 1 ∧ (7 <= j)%nat)
  ∧ ((length day_vars <= 7)%nat → is_Some (checked_days 0 day_vars))
  ∧ ∀ days0, checked_days 0 day_vars = Some days0 →
      days0 `sublist_of` DAYS
      ∧ NoDup days0
      ∧ ∀ d, d ∈ days0 ↔ ∃ j, day_vars !! j = Some 1 ∧ DAYS !! j = Some d.
Proof.
  split_and!.
  - by rewrite checked_days_None.
  - intros Hlen. destruct (checked_days 0 day_vars) eqn:E; [done|].
    apply checked_days_None in E as (j & Hj & Hge).
    apply lookup_lt_Some in Hj. simpl in Hge. lia.
  - intros days0 Hd.
    pose proof (checked_days_sublist _ _ _ Hd) as Hsub. split_and!.
    + done.
    + eapply sublist_NoDup; [apply DAYS_NoDup|exact Hsub].
    + intros d. by rewrite (checked_days_elem _ _ _ d Hd).
Qed.

Lemma checked_days_spec_witness :
  is_Some (checked_days 0 Mon_only)
  ∧ ∀ days0, checked_days 0 Mon_only = Some days0 → NoDup days0.
Proof.
  assert (Hlen : (length Mon_only <= 7)%nat) by (vm_compute; lia).
  split.
  - exact (proj1 (proj2 (checked_days_spec Mon_only)) Hlen).
  - intros days0 Hd.
    exact (proj1 (proj2 (proj2 (proj2 (checked_days_spec Mon_only)) days0 Hd))).
Defined.


(** ** [add_class], further *)

Lemma update_class_list_completes app :
  Forall wf_entry (self_classes app) → (update_class_list app).2 = Completed.
Proof.
  intros Hwf. unfold update_class_list.
  by destruct (fill_listbox_rows (self_classes app) [] Hwf) as (rows & -> & _).
Qed.

Lemma update_class_list_length app :
  Forall wf_entry (self_classes app) →
  length (class_listbox (update_class_list app).1)
  = length (self_classes app).
Proof.
  intros Hwf. unfold update_class_list.
  destruct (fill_listbox_rows (self_classes app) [] Hwf)
    as (rows & -> & Hrows).
  simpl. symmetry. by eapply Forall2_length.
Qed.

Lemma add_class_not_completed name_entry start_entry end_entry day_vars app :
  Inv app →
  (add_class name_entry start_entry end_entry day_vars app).2 ≠ Completed →
  (add_class name_entry start_entry end_entry day_vars app).1 = app.
Proof.
  intros HInv.
  pose proof (Inv_add_class name_entry start_entry end_entry day_vars app HInv)
    as [_ Hwf'].
  destruct (add_class_inv name_entry start_entry end_entry day_vars app);
    try done.
  rewrite update_class_list_classes in Hwf'.
  by rewrite update_class_list_completes.
Qed.

Lemma add_class_completed_stored name_entry start_entry end_entry day_vars app :
  Inv app →
  (add_class name_entry start_entry end_entry day_vars app).2 = Completed →
  (∃ c, self_classes
          (add_class name_entry start_entry end_entry day_vars app).1
        = self_classes app ++ [c]
        ∧ name c = strip name_entry
        ∧ parse_time (strip start_entry) = Some (start c)
        ∧ parse_time (strip end_entry) = Some (end_ c)
        ∧ checked_days 0 day_vars = Some (days c))
  ∧ length (class_listbox
              (add_class name_entry start_entry end_entry day_vars app).1)
    = S (length (self_classes app)).
Proof.
  intros HInv.
  pose proof (Inv_add_class name_entry start_entry end_entry day_vars app HInv)
    as [_ Hwf'].
  destruct HInv as [Href Hwf].
  destruct (add_class_inv name_entry start_entry end_entry day_vars app)
    as [| | | | | |start0 end0 days0 Hn Hs He Hg Hd Hd0 Hc]; try done.
  intros _.
  match goal with |- context [update_class_list ?a] => set (app1 := a) in * end.
  assert (Hcs : self_classes app1
                = self_classes app
                  ++ [{| name := strip name_entry; start := start0;
                         end_ := end0; days := days0 |}]).
  { subst app1. unfold self_classes at 1. simpl.
    by apply self_classes_assign. }
  rewrite update_class_list_classes in Hwf'.
  split.
  - eexists. rewrite update_class_list_classes. by split_and!.
  - rewrite update_class_list_length by done.
    rewrite Hcs, length_app. simpl. lia.
Qed.

(** X10: on a well-formed state [add_class] is all or nothing: either it runs
    to its end, and then exactly the entered class has been appended (the
    stripped name, the two parsed times, the checked days) and the list
    box shows one row for each stored class; or it does not run to its
    end, and then the object is as it was. *)
Theorem add_class_all_or_nothing name_entry start_entry end_entry day_vars app :
  Inv app →
  let result := add_class name_entry start_entry end_entry day_vars app in
  (result.2 = Completed
   ∧ (∃ c, self_classes result.1 = self_classes app ++ [c]
           ∧ name c = strip name_entry
           ∧ parse_time (strip start_entry) = Some (start c)
           ∧ parse_time (strip end_entry) = Some (end_ c)
           ∧ checked_days 0 day_vars = Some (days c))
   ∧ length (class_listbox result.1) = S (length (self_classes app)))
  ∨ (result.2 ≠ Completed ∧ result.1 = app).
Proof.
  intros HInv result. subst result.
  destruct (add_class name_entry start_entry end_entry day_vars app).2 eqn:Hev.
  - left. split; [done|].
    by apply add_class_completed_stored.
  - right. split; [done|]. apply add_class_not_completed; [done|].
    by rewrite Hev.
  - right. split; [done|]. apply add_class_not_completed; [done|].
    by rewrite Hev.
  - right. split; [done|]. apply add_class_not_completed; [done|].
    by rewrite Hev.
Qed.

Lemma add_class_all_or_nothing_witness :
  (add_class "Math" "09:00" "10:00" [1; 0; 1; 0; 1; 0; 0] init).2 = Completed
  ∧ length (class_listbox with_math) = 1%nat.
Proof.
  destruct (add_class_all_or_nothing "Math" "09:00" "10:00"
              [1; 0; 1; 0; 1; 0; 0] init Inv_init)
    as [(Hev & _ & Hlen)|[Hev _]].
  - split; [exact Hev|exact Hlen].
  - exfalso. apply Hev. vm_compute. reflexivity.
Defined.

(** X11: with the seven check boxes of the form, [add_class] on a well-formed
    state never lets an exception out. *)
Theorem add_class_no_exception name_entry start_entry end_entry day_vars app :
  Inv app → (length day_vars <= 7)%nat →
  (add_class name_entry start_entry end_entry day_vars app).2 ≠ Raised.
Proof.
  intros HInv Hlen.
  pose proof (Inv_add_class name_entry start_entry end_entry day_vars app HInv)
    as [_ Hwf'].
  destruct (add_class_inv name_entry start_entry end_entry day_vars app)
    as [| | |start0 end0 Hn Hs He Hg Hd| | |]; try discriminate.
  - apply checked_days_None in Hd as (j & Hj & Hge).
    apply lookup_lt_Some in Hj. change (length DAYS) with 7%nat in Hge. lia.
  - rewrite update_class_list_classes in Hwf'.
    by rewrite update_class_list_completes.
Qed.

Lemma add_class_no_exception_witness :
  (add_class "Art" "12:00" "13:00" Mon_only three_on_Monday).2 ≠ Raised.
Proof.
  assert (Hlen : (length Mon_only <= 7)%nat) by (vm_compute; lia).
  exact (add_class_no_exception "Art" "12:00" "13:00" Mon_only
           three_on_Monday three_on_Monday_Inv Hlen).
Defined.

Lemma find_conflict_app days0 start0 end0 l1 l2 :
  find_conflict days0 start0 end0 (l1 ++ l2)
  = match find_conflict days0 start0 end0 l1 with
    | Some r => Some r
    | None => find_conflict days0 start0 end0 l2
    end.
Proof.
  induction l1 as [|c l1 IH]; cbn [find_conflict app]; [done|].
  by destruct (bool_decide _ && _).
Qed.

Lemma shared_self days0 d : d ∈ shared days0 days0 ↔ d ∈ days0.
Proof.
  unfold shared. rewrite elem_of_intersection, elem_of_list_to_set. tauto.
Qed.

(** X12: submitting again what was just accepted is refused: the second call
    ends with the conflict warning, which names the class stored by the
    first call and lists all of its days, and stores nothing. *)
Theorem add_class_twice name_entry start_entry end_entry day_vars app :
  Inv app →
  let first := add_class name_entry start_entry end_entry day_vars app in
  first.2 = Completed →
  ∃ shared_days,
    add_class name_entry start_entry end_entry day_vars first.1
    = (first.1,
       Showwarning "Time Conflict" (strip name_entry) shared_days)
    ∧ ∀ d, d ∈ shared_days
           ↔ ∃ j, day_vars !! j = Some 1 ∧ DAYS !! j = Some d.
Proof.
  intros HInv first Hfirst. subst first.
  pose proof HInv as [Href Hwf].
  destruct (add_class_inv name_entry start_entry end_entry day_vars app)
    as [| | | | | |start0 end0 days0 Hn Hs He Hg Hd Hd0 Hc]; try discriminate.
  match goal with |- context [update_class_list ?a] => set (app1 := a) in * end.
  set (c := {| name := strip name_entry; start := start0;
               end_ := end0; days := days0 |}).
  assert (Hcs : self_classes (update_class_list app1).1
                = self_classes app ++ [c]).
  { rewrite update_class_list_classes. subst app1.
    unfold self_classes at 1. simpl. by apply self_classes_assign. }
  pose proof (parse_time_valid _ _ Hs) as Vs.
  pose proof (parse_time_valid _ _ He) as Ve.
  assert (Hself : find_conflict days0 start0 end0 [c]
                  = Some (strip name_entry, shared days0 days0)).
  { cbn [find_conflict]. subst c. cbn [days start end_ name].
    assert (Hne : shared days0 days0 ≠ ∅).
    { destruct days0 as [|d ds]; [done|].
      intros Hempty. assert (d ∈ shared (d :: ds) (d :: ds)) as Hin
        by (apply shared_self; by left).
      rewrite Hempty in Hin. by apply elem_of_empty in Hin. }
    rewrite bool_decide_eq_true_2 by done.
    assert (Hov : times_overlap start0 end0 start0 end0 = true).
    { unfold times_overlap. apply geb_false_ltb in Hg; [|done..].
      rewrite ltb_scaled in Hg by done. apply Z.ltb_lt in Hg.
      rewrite !leb_scaled by done.
      rewrite orb_diag, negb_true_iff. apply Z.leb_gt. lia. }
    by rewrite Hov. }
  exists (shared days0 days0). split.
  - unfold add_class.
    rewrite bool_decide_eq_false_2 by done.
    rewrite Hs, He, Hg, Hd.
    rewrite bool_decide_eq_false_2 by done.
    by rewrite Hcs, find_conflict_app, Hc, Hself.
  - intros d. rewrite shared_self.
    rewrite (checked_days_elem _ _ _ d Hd). by setoid_rewrite Nat.add_0_l.
Qed.

Lemma add_class_twice_witness :
  ∃ shared_days,
    (add_class "Math" "09:00" "10:00" [1; 0; 1; 0; 1; 0; 0] with_math).2
    = Showwarning "Time Conflict" "Math" shared_days.
Proof.
  assert (H : (add_class "Math" "09:00" "10:00" [1; 0; 1; 0; 1; 0; 0] init).2
              = Completed) by (vm_compute; reflexivity).
  destruct (add_class_twice "Math" "09:00" "10:00" [1; 0; 1; 0; 1; 0; 0]
              init Inv_init H) as (sd & Heq & _).
  exists sd. unfold with_math. rewrite Heq. vm_compute. reflexivity.
Defined.


(** ** The button *)

(** X13: what one press of "Add Class" does to the form, on a well-formed
    state: when the class is stored the three entries are emptied and
    every check box is cleared, the number of boxes staying the same;
    otherwise the form and the object are left as they were, so that the
    input can be corrected. *)
Theorem add_class_button_form f app :
  Inv app →
  let result := add_class_button (f, app) in
  (result.2 = Completed
   ∧ name_entry result.1.1 = EmptyString
   ∧ start_entry result.1.1 = EmptyString
   ∧ end_entry result.1.1 = EmptyString
   ∧ length (day_vars result.1.1) = length (day_vars f)
   ∧ Forall (fun v => v = 0) (day_vars result.1.1)
   ∧ length (self_classes result.1.2) = S (length (self_classes app)))
  ∨ (result.2 ≠ Completed ∧ result.1 = (f, app)).
Proof.
  intros HInv result. subst result. unfold add_class_button.
  pose proof (add_class_completed_stored (name_entry f) (start_entry f)
                (end_entry f) (day_vars f) app HInv) as Hdone.
  pose proof (add_class_not_completed (name_entry f) (start_entry f)
                (end_entry f) (day_vars f) app HInv) as Hnot.
  destruct (add_class _ _ _ _ app) as [app' ev]. simpl in Hdone, Hnot.
  destruct ev; simpl.
  - left. destruct (Hdone eq_refl) as [(c & Hcs & _) _].
    split_and!; try done.
    + by rewrite length_fmap.
    + apply Forall_fmap. by apply Forall_true.
    + rewrite Hcs, length_app. simpl. lia.
  - right. split; [done|]. by rewrite Hnot.
  - right. split; [done|]. by rewrite Hnot.
  - right. split; [done|]. by rewrite Hnot.
Qed.

Lemma add_class_button_form_witness :
  (add_class_button
     ({| name_entry := "Math"; start_entry := "09:00"; end_entry := "10:00";
         day_vars := [1; 0; 1; 0; 1; 0; 0] |}, init)).1.1
  = form_init.
Proof.
  destruct (add_class_button_form
              {| name_entry := "Math"; start_entry := "09:00";
                 end_entry := "10:00"; day_vars := [1; 0; 1; 0; 1; 0; 0] |}
              init Inv_init) as [_|[Hev _]].
  - vm_compute. reflexivity.
  - exfalso. apply Hev. vm_compute. reflexivity.
Defined.

(** X14: a second press right after a class was stored finds an empty form:
    it reports the empty class name and changes nothing. *)
Theorem add_class_button_again f app :
  (add_class_button (f, app)).2 = Completed →
  add_class_button (add_class_button (f, app)).1
  = ((add_class_button (f, app)).1,
     Showerror "Invalid Input" "Class name cannot be empty.").
Proof.
  intros Hev. unfold add_class_button in Hev |- *.
  destruct (add_class _ _ _ _ app) as [app' ev].
  destruct ev; simpl in Hev; try discriminate.
  cbn [fst snd name_entry start_entry end_entry day_vars].
  unfold add_class.
  assert (Hblank : strip EmptyString = EmptyString) by reflexivity.
  by rewrite bool_decide_eq_true_2 by exact Hblank.
Qed.

Lemma add_class_button_again_witness :
  (add_class_button
     (add_class_button
        ({| name_entry := "Math"; start_entry := "09:00";
            end_entry := "10:00"; day_vars := [1; 0; 1; 0; 1; 0; 0] |},
         init)).1).2
  = Showerror "Invalid Input" "Class name cannot be empty.".
Proof.
  set (f := {| name_entry := "Math"%string; start_entry := "09:00"%string;
               end_entry := "10:00"%string;
               day_vars := [1; 0; 1; 0; 1; 0; 0] |}).
  assert (H : (add_class_button (f, init)).2 = Completed)
    by (vm_compute; reflexivity).
  by rewrite (add_class_button_again f init H).
Defined.

(** ** [select_classes], further *)

Lemma append_empty_r s : s +:+ EmptyString = s.
Proof.
  induction s as [|a s IH]; [done|].
  change (String a (s +:+ EmptyString) = String a s). by rewrite IH.
Qed.

Lemma append_assoc s1 s2 s3 : (s1 +:+ s2) +:+ s3 = s1 +:+ (s2 +:+ s3).
Proof.
  induction s1 as [|a s1 IH]; [done|].
  change (String a ((s1 +:+ s2) +:+ s3) = String a (s1 +:+ (s2 +:+ s3))).
  by rewrite IH.
Qed.

Lemma render_completes sel current_day text :
  Forall (fun x => wf_entry x.2) sel →
  ∃ more, render sel current_day text = (text +:+ more, Completed)
          ∧ (sel ≠ [] → current_day = None →
             ∃ rest, more = String "010" rest).
Proof.
  intros Hsel. revert current_day text.
  induction Hsel as [|[day c] sel Hc Hsel IH]; intros current_day text;
    cbn [render].
  - exists EmptyString. split; [|done]. by rewrite append_empty_r.
  - simpl in Hc.
    destruct (format_time_clock (start c)) as [s ->];
      [apply is_time_clock, Hc|].
    destruct (format_time_clock (end_ c)) as [e ->];
      [apply is_time_clock, Hc|].
    match goal with |- context [render sel (Some day) ?t] =>
      destruct (IH (Some day) t) as (more & -> & _) end.
    case_bool_decide as Hday.
    + eexists. split.
      * rewrite !append_assoc. reflexivity.
      * intros _ _.
        match goal with |- ∃ rest, nl +:+ ?X = _ => by exists X end.
    + eexists. split.
      * rewrite !append_assoc. reflexivity.
      * intros _ ->. discriminate Hday.
Qed.

Lemma accepted_nonempty c cs :
  timed c → accepted (of_Z (-1)) (c :: cs) ≠ [].
Proof.
  intros (Vs & _ & ?). cbn [accepted].
  rewrite geb_scaled by done.
  pose proof sentinel_neg.
  destruct (Z.leb_spec (scaled (of_Z (-1))) (scaled (start c))); [done|lia].
Qed.

Lemma by_day_nil cs :
  Forall wf_entry cs → by_day cs = [] ↔ cs = [].
Proof.
  intros Hwf. split; [|by intros ->].
  intros Hnil. destruct cs as [|c cs]; [done|]. exfalso.
  apply Forall_cons in Hwf as Hwf'. destruct Hwf' as [Hc _].
  destruct (days c) as [|d ds] eqn:Hd; [by apply (wf_days_nonempty c Hc)|].
  assert (Hin : d ∈ DAYS) by (apply (wf_days c Hc); rewrite Hd; by left).
  assert (Hon : c ∈ on_day d (c :: cs)).
  { apply list_elem_of_filter. split; [rewrite Hd|]; by left. }
  rewrite <- day_sorted_perm in Hon.
  assert (Hch : chosen d (c :: cs) ≠ []).
  { unfold chosen. pose proof (day_sorted_timed d _ (Forall_wf_timed _ Hwf)) as Ht.
    destruct (day_sorted d (c :: cs)) as [|x l]; [by apply elem_of_nil in Hon|].
    apply accepted_nonempty. by apply Forall_cons in Ht as [? _]. }
  destruct (chosen d (c :: cs)) as [|x l] eqn:E; [done|].
  assert ((d, x) ∈ by_day (c :: cs)).
  { unfold by_day. apply list_elem_of_bind. exists d. split; [|done].
    rewrite E. by left. }
  rewrite Hnil in H. by apply elem_of_nil in H.
Qed.

Lemma selected_wf app :
  Inv app → Forall (fun x => wf_entry x.2) (selected app).2.
Proof.
  intros [Href Hwf]. rewrite selected_by_day by (done || by apply Forall_wf_timed).
  apply Forall_forall.
  intros x (d & (c & -> & Hc)%list_elem_of_fmap & _)%list_elem_of_bind.
  simpl. eapply Forall_forall in Hwf; [exact Hwf|].
  apply (sublist_subseteq _ _ (accepted_sublist _ _)) in Hc.
  rewrite day_sorted_perm in Hc. by apply list_elem_of_filter in Hc as [_ ?].
Qed.

(** X15: on a well-formed state [select_classes] runs to its end without an
    exception. It selects nothing exactly when no class is stored, and
    that is the one case in which the result text is "No classes
    selected."; otherwise the text begins with a line break. *)
Theorem select_classes_empty app :
  Inv app →
  (select_classes app).2 = Completed
  ∧ ((selected app).2 = [] ↔ self_classes app = [])
  ∧ (result_text (select_classes app).1 = "No classes selected."%string
     ↔ self_classes app = [])
  ∧ (self_classes app ≠ [] →
     ∃ rest, result_text (select_classes app).1 = String "010" rest).
Proof.
  intros HInv. pose proof (selected_wf app HInv) as Hsel.
  pose proof HInv as [Href Hwf].
  assert (Hnil : (selected app).2 = [] ↔ self_classes app = []).
  { rewrite selected_by_day by (done || by apply Forall_wf_timed).
    by apply by_day_nil. }
  unfold select_classes.
  destruct (selected app) as [h sel]. simpl in Hsel, Hnil.
  case_bool_decide as Hs.
  - simpl. split_and!; try done.
    + by rewrite <- Hnil.
    + intros Hne. by apply Hnil in Hs.
  - destruct (render_completes sel None EmptyString Hsel)
      as (more & -> & Hmore).
    destruct (Hmore Hs eq_refl) as [rest ->]. simpl.
    split_and!; try done.
    + split; [discriminate|]. intros Hcs. by apply Hnil in Hcs.
    + intros _. by exists rest.
Qed.

Lemma select_classes_empty_witness :
  (select_classes three_on_Monday).2 = Completed
  ∧ ∃ rest, result_text (select_classes three_on_Monday).1 = String "010" rest.
Proof.
  destruct (select_classes_empty three_on_Monday three_on_Monday_Inv)
    as (Hev & _ & _ & Htext).
  split; [exact Hev|]. apply Htext. discriminate.
Defined.


(** ** Operations in sequence *)

Lemma add_class_same_classes name_entry start_entry end_entry day_vars a b :
  ref_ok a → ref_ok b → self_classes a = self_classes b →
  (add_class name_entry start_entry end_entry day_vars a).2
  = (add_class name_entry start_entry end_entry day_vars b).2
  ∧ self_classes (add_class name_entry start_entry end_entry day_vars a).1
    = self_classes (add_class name_entry start_entry end_entry day_vars b).1.
Proof.
  intros Ha Hb Hab. unfold add_class. rewrite Hab.
  repeat (case_bool_decide || case_match); simpl; try done.
  assert (Heq : ∀ (x : App) cs,
            ref_ok x →
            self_classes
              {| heap := assign (heap x) (classes x) cs; classes := classes x;
                 class_listbox := class_listbox x;
                 result_text := result_text x |} = cs).
  { intros x cs Hx. unfold self_classes at 1. simpl.
    by apply self_classes_assign. }
  split.
  - unfold update_class_list. rewrite !Heq by done.
    by destruct (fill_listbox _ _).
  - by rewrite !update_class_list_classes, !Heq.
Qed.

Lemma selected_same_classes a b :
  ref_ok a → ref_ok b → self_classes a = self_classes b →
  (selected a).2 = (selected b).2.
Proof. intros Ha Hb Hab. rewrite !selected_spec by done. simpl. by rewrite Hab. Qed.

Lemma select_classes_text app :
  result_text (select_classes app).1
  = if bool_decide ((selected app).2 = []) then "No classes selected."%string
    else (render (selected app).2 None EmptyString).1.
Proof.
  unfold select_classes. destruct (selected app) as [h sel]. cbn [snd].
  case_bool_decide; [done|].
  by destruct (render sel None EmptyString).
Qed.

(** X16: pressing "Select Non-Overlapping Classes" has no bearing on what
    comes after: a later [add_class] ends the same way and stores the
    same classes as without it, and selecting again gives the same
    selection and the same text. *)
Theorem select_classes_then name_entry start_entry end_entry day_vars app :
  ref_ok app →
  (add_class name_entry start_entry end_entry day_vars
     (select_classes app).1).2
  = (add_class name_entry start_entry end_entry day_vars app).2
  ∧ self_classes
      (add_class name_entry start_entry end_entry day_vars
         (select_classes app).1).1
    = self_classes (add_class name_entry start_entry end_entry day_vars app).1
  ∧ (selected (select_classes app).1).2 = (selected app).2
  ∧ result_text (select_classes (select_classes app).1).1
    = result_text (select_classes app).1.
Proof.
  intros Href.
  assert (Href' : ref_ok (select_classes app).1).
  { unfold ref_ok. destruct (select_classes_heap app Href) as [-> ->].
    rewrite length_app. unfold ref_ok in Href. lia. }
  pose proof (select_classes_classes app Href) as Hcs.
  pose proof (selected_same_classes _ _ Href' Href Hcs) as Hsel.
  destruct (add_class_same_classes name_entry start_entry end_entry day_vars
              _ _ Href' Href Hcs) as [Hev Hst].
  split_and!; try done.
  by rewrite !select_classes_text, Hsel.
Qed.

Lemma select_classes_then_witness :
  (add_class "Art" "12:00" "13:00" Mon_only
     (select_classes three_on_Monday).1).2
  = (add_class "Art" "12:00" "13:00" Mon_only three_on_Monday).2.
Proof.
  assert (H : ref_ok three_on_Monday) by (unfold ref_ok; simpl; lia).
  exact (proj1 (select_classes_then "Art" "12:00" "13:00" Mon_only
                  three_on_Monday H)).
Defined.

Lemma candidate_wf name_entry start_entry end_entry day_vars c :
  candidate name_entry start_entry end_entry day_vars = Some c → wf_entry c.
Proof.
  unfold candidate. intros H.
  case_bool_decide as Hn; [done|].
  destruct (parse_time (strip start_entry)) as [x|] eqn:Hs; [|done].
  destruct (parse_time (strip end_entry)) as [y|] eqn:He; [|done].
  destruct (geb x y) eqn:Hg; [done|].
  destruct (checked_days 0 day_vars) as [ds|] eqn:Hd; [|done].
  case_bool_decide as Hd0; [done|]. injection H as <-.
  pose proof (parse_time_valid _ _ Hs). pose proof (parse_time_valid _ _ He).
  constructor; simpl; try done.
  - by eapply parse_time_is_time.
  - by eapply parse_time_is_time.
  - by eapply is_clock_range, is_time_clock, parse_time_is_time.
  - by eapply is_clock_range, is_time_clock, parse_time_is_time.
  - by apply geb_false_ltb.
  - by eapply checked_days_DAYS.
Qed.

Lemma compatible_no_conflict c E :
  timed c → timed E →
  compatible E c → ¬ conflicts (days c) (start c) (end_ c) E.
Proof.
  intros Tc TE Hcomp [(d & Hd & HdE) Hov].
  pose proof Tc as (? & ? & _).
  apply times_overlap_half_open in Hov; [|done..].
  assert (overlap E c = false) as Hno by (apply Hcomp; by exists d).
  rewrite overlap_sym in Hno. unfold overlap in Hno. congruence.
Qed.

(** [add_class] stores a class exactly when the input passes the checks
    and the class it stands for is compatible with every stored class. *)
Lemma add_class_completed name_entry start_entry end_entry day_vars app :
  Inv app →
  (add_class name_entry start_entry end_entry day_vars app).2 = Completed
  ↔ ∃ c, candidate name_entry start_entry end_entry day_vars = Some c
         ∧ Forall (fun E => compatible E c) (self_classes app).
Proof.
  intros HInv. pose proof HInv as [Href Hwf].
  pose proof (Forall_wf_timed _ Hwf) as Ht.
  pose proof (Inv_add_class name_entry start_entry end_entry day_vars app HInv)
    as [_ Hwf'].
  unfold candidate.
  destruct (add_class_inv name_entry start_entry end_entry day_vars app)
    as [Hn|Hn [Hp|Hp]|x y Hn Hs He Hg|x y Hn Hs He Hg Hd|x y Hn Hs He Hg Hd
       |x y ds nm sd Hn Hs He Hg Hd Hd0 Hc|x y ds Hn Hs He Hg Hd Hd0 Hc].
  - rewrite bool_decide_eq_true_2 by done. split; [done|by intros (? & ? & _)].
  - rewrite bool_decide_eq_false_2 by done. rewrite Hp.
    split; [done|by intros (? & ? & _)].
  - rewrite bool_decide_eq_false_2 by done. rewrite Hp.
    split; [done|]. intros (? & H & _).
    destruct (parse_time (strip start_entry)); discriminate H.
  - rewrite bool_decide_eq_false_2 by done. rewrite Hs, He, Hg.
    split; [done|by intros (? & ? & _)].
  - rewrite bool_decide_eq_false_2 by done. rewrite Hs, He, Hg, Hd.
    split; [done|by intros (? & ? & _)].
  - rewrite bool_decide_eq_false_2 by done. rewrite Hs, He, Hg, Hd.
    split; [done|by intros (? & ? & _)].
  - rewrite bool_decide_eq_false_2 by done. rewrite Hs, He, Hg, Hd.
    rewrite bool_decide_eq_false_2 by done.
    split; [done|]. intros (c & [= <-] & Hall). exfalso.
    pose proof (parse_time_valid _ _ Hs). pose proof (parse_time_valid _ _ He).
    apply find_conflict_Some in Hc
      as (l1 & E & l2 & Hcs & _ & HE & _); [|done..].
    assert (HinE : E ∈ self_classes app)
      by (rewrite Hcs; apply elem_of_app; right; by left).
    eapply Forall_forall in Hall; [|exact HinE].
    eapply Forall_forall in Ht; [|exact HinE].
    revert HE. apply (compatible_no_conflict
      {| name := strip name_entry; start := x; end_ := y; days := ds |});
      [|done..].
    apply geb_false_ltb in Hg; [|done..].
    rewrite ltb_scaled in Hg by done. apply Z.ltb_lt in Hg.
    split_and!; simpl; try done.
    assert (is_clock x) by by eapply is_time_clock, parse_time_is_time.
    by apply is_clock_nonneg.
  - rewrite bool_decide_eq_false_2 by done. rewrite Hs, He, Hg, Hd.
    rewrite bool_decide_eq_false_2 by done.
    rewrite update_class_list_classes in Hwf'.
    rewrite update_class_list_completes by done.
    split; [|done]. intros _. eexists. split; [done|].
    pose proof (parse_time_valid _ _ Hs). pose proof (parse_time_valid _ _ He).
    apply find_conflict_None in Hc; [|done..].
    apply Forall_forall. intros E HE.
    apply no_conflict_compatible; try done.
    + by eapply Forall_forall in Ht.
    + by eapply Forall_forall in Hc.
Qed.

Lemma add_class_stored name_entry start_entry end_entry day_vars app c :
  Inv app →
  candidate name_entry start_entry end_entry day_vars = Some c →
  (add_class name_entry start_entry end_entry day_vars app).2 = Completed →
  self_classes (add_class name_entry start_entry end_entry day_vars app).1
  = self_classes app ++ [c].
Proof.
  intros HInv Hcand Hev. unfold candidate in Hcand.
  destruct (add_class_completed_stored name_entry start_entry end_entry
              day_vars app HInv Hev)
    as [(c' & Hcs & Hn & Hs & He & Hd) _].
  rewrite Hcs. f_equal. f_equal.
  rewrite Hs, He, Hd in Hcand.
  repeat (case_bool_decide || case_match); simplify_eq.
  by destruct c'; simpl in *; subst.
Qed.


Lemma add_class_both_stored name_entry1 start_entry1 end_entry1 day_vars1
    name_entry2 start_entry2 end_entry2 day_vars2 app c1 c2 :
  Inv app →
  candidate name_entry1 start_entry1 end_entry1 day_vars1 = Some c1 →
  candidate name_entry2 start_entry2 end_entry2 day_vars2 = Some c2 →
  (add_class name_entry1 start_entry1 end_entry1 day_vars1 app).2
  = Completed →
  (add_class name_entry2 start_entry2 end_entry2 day_vars2
     (add_class name_entry1 start_entry1 end_entry1 day_vars1 app).1).2
  = Completed →
  self_classes
    (add_class name_entry2 start_entry2 end_entry2 day_vars2
       (add_class name_entry1 start_entry1 end_entry1 day_vars1 app).1).1
  = self_classes app ++ [c1; c2].
Proof.
  intros HInv Hc1 Hc2 Hev1 Hev2.
  pose proof (Inv_add_class name_entry1 start_entry1 end_entry1 day_vars1
                app HInv) as HInv1.
  rewrite (add_class_stored _ _ _ _ _ _ HInv1 Hc2 Hev2).
  rewrite (add_class_stored _ _ _ _ _ _ HInv Hc1 Hev1).
  by rewrite <- app_assoc.
Qed.

Lemma add_class_both name_entry1 start_entry1 end_entry1 day_vars1
    name_entry2 start_entry2 end_entry2 day_vars2 app :
  Inv app →
  ((add_class name_entry1 start_entry1 end_entry1 day_vars1 app).2
   = Completed
   ∧ (add_class name_entry2 start_entry2 end_entry2 day_vars2
        (add_class name_entry1 start_entry1 end_entry1 day_vars1 app).1).2
     = Completed)
  ↔ ∃ c1 c2,
      candidate name_entry1 start_entry1 end_entry1 day_vars1 = Some c1
      ∧ candidate name_entry2 start_entry2 end_entry2 day_vars2 = Some c2
      ∧ Forall (fun E => compatible E c1) (self_classes app)
      ∧ Forall (fun E => compatible E c2) (self_classes app)
      ∧ compatible c1 c2.
Proof.
  intros HInv.
  pose proof (Inv_add_class name_entry1 start_entry1 end_entry1 day_vars1
                app HInv) as HInv1.
  split.
  - intros [Hev1 Hev2].
    pose proof Hev1 as (c1 & Hc1 & H1)%add_class_completed; [|done].
    pose proof Hev2 as (c2 & Hc2 & H2)%add_class_completed; [|done].
    rewrite (add_class_stored _ _ _ _ _ _ HInv Hc1 Hev1) in H2.
    apply Forall_app in H2 as [H2 H12]. rewrite Forall_singleton in H12.
    by exists c1, c2.
  - intros (c1 & c2 & Hc1 & Hc2 & H1 & H2 & H12).
    assert (Hev1 : (add_class name_entry1 start_entry1 end_entry1 day_vars1
                      app).2 = Completed)
      by (apply add_class_completed; eauto).
    split; [done|]. apply add_class_completed; [done|].
    exists c2. split; [done|].
    rewrite (add_class_stored _ _ _ _ _ _ HInv Hc1 Hev1).
    apply Forall_app. split; [done|]. by apply Forall_singleton.
Qed.

(** X17: whether two inputs are both stored does not depend on the order in
    which they are submitted, and in either order the same classes end up
    stored. *)
Theorem add_class_order name_entry1 start_entry1 end_entry1 day_vars1
    name_entry2 start_entry2 end_entry2 day_vars2 app :
  Inv app →
  let add1 := add_class name_entry1 start_entry1 end_entry1 day_vars1 in
  let add2 := add_class name_entry2 start_entry2 end_entry2 day_vars2 in
  ((add1 app).2 = Completed ∧ (add2 (add1 app).1).2 = Completed
   ↔ (add2 app).2 = Completed ∧ (add1 (add2 app).1).2 = Completed)
  ∧ ((add1 app).2 = Completed → (add2 (add1 app).1).2 = Completed →
     self_classes (add2 (add1 app).1).1 ≡ₚ self_classes (add1 (add2 app).1).1).
Proof.
  intros HInv add1 add2. subst add1 add2.
  pose proof (add_class_both name_entry1 start_entry1 end_entry1 day_vars1
                name_entry2 start_entry2 end_entry2 day_vars2 app HInv) as H12.
  pose proof (add_class_both name_entry2 start_entry2 end_entry2 day_vars2
                name_entry1 start_entry1 end_entry1 day_vars1 app HInv) as H21.
  assert (Hiff : (add_class name_entry1 start_entry1 end_entry1 day_vars1
                    app).2 = Completed
                 ∧ (add_class name_entry2 start_entry2 end_entry2 day_vars2
                      (add_class name_entry1 start_entry1 end_entry1
                         day_vars1 app).1).2 = Completed
                 ↔ (add_class name_entry2 start_entry2 end_entry2 day_vars2
                      app).2 = Completed
                   ∧ (add_class name_entry1 start_entry1 end_entry1 day_vars1
                        (add_class name_entry2 start_entry2 end_entry2
                           day_vars2 app).1).2 = Completed).
  { rewrite H12, H21. split.
    - intros (c1 & c2 & ? & ? & ? & ? & ?%compatible_sym). by exists c2, c1.
    - intros (c2 & c1 & ? & ? & ? & ? & ?%compatible_sym). by exists c1, c2. }
  split; [exact Hiff|].
  intros Hev1 Hev2.
  destruct (proj1 Hiff (conj Hev1 Hev2)) as [Hev2' Hev1'].
  destruct (proj1 H12 (conj Hev1 Hev2)) as (c1 & c2 & Hc1 & Hc2 & _).
  rewrite (add_class_both_stored _ _ _ _ _ _ _ _ _ c1 c2 HInv Hc1 Hc2 Hev1 Hev2).
  rewrite (add_class_both_stored _ _ _ _ _ _ _ _ _ c2 c1 HInv Hc2 Hc1
             Hev2' Hev1').
  apply Permutation_app_head, Permutation_swap.
Qed.

Lemma add_class_order_witness :
  (add_class "B" "10:00" "11:00" Mon_only
     (add_class "A" "09:00" "10:00" Mon_only init).1).2 = Completed
  ∧ (add_class "A" "09:00" "10:00" Mon_only
       (add_class "B" "10:00" "11:00" Mon_only init).1).2 = Completed.
Proof.
  assert (H1 : (add_class "A" "09:00" "10:00" Mon_only init).2 = Completed)
    by (vm_compute; reflexivity).
  assert (H2 : (add_class "B" "10:00" "11:00" Mon_only
                  (add_class "A" "09:00" "10:00" Mon_only init).1).2
               = Completed) by (vm_compute; reflexivity).
  split; [exact H2|].
  exact (proj2 (proj1 (proj1 (add_class_order "A" "09:00" "10:00" Mon_only
                                "B" "10:00" "11:00" Mon_only init Inv_init))
                  (conj H1 H2))).
Defined.
